(** * Directory-name mappings of [autofile.schema.loc_maps]

    A shallow embedding of the specifier mappings that name the
    directories of a DataSeries, together with the properties of
    their canonical ordering, formatting and validation. *)

From Stdlib Require Import ZArith NArith PeanoNat List String Ascii Bool Lia.
From Stdlib Require Import DecimalString DecimalN SpecFloat Sorted Permutation.
Import ListNotations.

Local Open Scope string_scope.
Local Open Scope Z_scope.

(** ** Python values, exceptions and built-ins *)

(** The exceptions the module can raise. *)
Inductive exn : Type :=
| AssertionError
| IndexError
| ValueError
| KeyError.

(** A call either returns a value or raises. *)
Inductive result (A : Type) : Type :=
| Ok (a : A)
| Raise (e : exn).

Arguments Ok {A} a.
Arguments Raise {A} e.

Definition bind {A B : Type} (r : result A) (k : A -> result B) : result B :=
  match r with
  | Ok a => k a
  | Raise e => Raise e
  end.

Notation "x <- r ;; k" := (bind r (fun x => k))
  (at level 61, r at next level, right associativity).
Notation "' p <- r ;; k" := (bind r (fun x => let p := x in k))
  (at level 61, p pattern, r at next level, right associativity).

(** [assert cond], followed by the rest of the body. *)
Definition py_assert {A : Type} (cond : bool) (k : result A) : result A :=
  if cond then k else Raise AssertionError.

(** The argument values the numeric checks distinguish.  [bool] is a
    subclass of [int] in Python, hence an instance of
    [numbers.Integral]. *)
Inductive pyval : Type :=
| PyInt (z : Z)
| PyBool (b : bool)
| PyFloat (f : spec_float)
| PyStr (s : string)
| PyNone.

(** [isinstance(v, numbers.Integral)] *)
Definition is_integral (v : pyval) : bool :=
  match v with
  | PyInt _ | PyBool _ => true
  | _ => false
  end.

(** The integer an Integral value stands for ([int(v)]); 0 elsewhere,
    where the callers never reach it. *)
Definition int_val (v : pyval) : Z :=
  match v with
  | PyInt z => z
  | PyBool true => 1
  | _ => 0
  end.

(** Decimal digits of a natural number, as [str] prints them. *)
Definition digits (n : N) : string := NilZero.string_of_uint (N.to_uint n).

(** [str(z)] for an [int]. *)
Definition str_int (z : Z) : string :=
  if z <? 0 then "-" ++ digits (Z.abs_N z) else digits (Z.abs_N z).

(** [str(v)] for an Integral value. *)
Definition str_integral (v : pyval) : string :=
  match v with
  | PyBool true => "True"
  | PyBool false => "False"
  | _ => str_int (int_val v)
  end.

Fixpoint replicate (n : nat) (c : ascii) : string :=
  match n with
  | O => EmptyString
  | S k => String c (replicate k c)
  end.

(** Left padding with a fill character up to a width. *)
Definition pad_left (fill : ascii) (width : nat) (s : string) : string :=
  replicate (width - String.length s) fill ++ s.

(** Format spec [0<w>d]: sign-aware zero padding. *)
Definition format_0wd (width : nat) (z : Z) : string :=
  if z <? 0
  then "-" ++ pad_left "0" (width - 1) (digits (Z.abs_N z))
  else pad_left "0" width (digits (Z.abs_N z)).

(** Format spec [0><w>d]: fill with ['0'], right-aligned. *)
Definition format_fill0_right (width : nat) (z : Z) : string :=
  pad_left "0" width (str_int z).

(** [int(s)] on an optionally signed run of decimal digits, the texts
    the numeric leaves produce.  Other text is reported as
    [ValueError]; the blanks and digit-group underscores that [int]
    accepts besides are not modelled. *)
Definition int_of_str (s : string) : result Z :=
  let parse (t : string) : option N :=
    match t with
    | EmptyString => None
    | _ => option_map N.of_uint (NilEmpty.uint_of_string t)
    end in
  match s with
  | String "-" t =>
      match parse t with
      | Some n => Ok (- Z.of_N n)
      | None => Raise ValueError
      end
  | String "+" t =>
      match parse t with
      | Some n => Ok (Z.of_N n)
      | None => Raise ValueError
      end
  | _ =>
      match parse s with
      | Some n => Ok (Z.of_N n)
      | None => Raise ValueError
      end
  end.

(** [s[i]] on a string, negative indices counting from the end. *)
Definition str_getitem (s : string) (i : Z) : result ascii :=
  let n := Z.of_nat (String.length s) in
  let j := if i <? 0 then i + n else i in
  if (0 <=? j) && (j <? n)
  then match String.get (Z.to_nat j) s with
       | Some c => Ok c
       | None => Raise IndexError
       end
  else Raise IndexError.

(** [s[1:]] *)
Definition str_tail (s : string) : string :=
  match s with
  | EmptyString => EmptyString
  | String _ t => t
  end.

(** [sep.join(parts)] *)
Fixpoint str_join (sep : string) (parts : list string) : string :=
  match parts with
  | [] => ""
  | [p] => p
  | p :: rest => p ++ sep ++ str_join sep rest
  end.

Definition starts_with_sep (s : string) : bool :=
  match s with
  | String "/" _ => true
  | _ => false
  end.

Fixpoint ends_with_sep (s : string) : bool :=
  match s with
  | EmptyString => false
  | String c EmptyString => Ascii.eqb c "/"
  | String _ t => ends_with_sep t
  end.

(** [os.path.join(a, *p)] of [posixpath]. *)
Definition path_join (a : string) (p : list string) : string :=
  fold_left
    (fun path b =>
       if starts_with_sep b then b
       else if (String.eqb path "") || ends_with_sep path then path ++ b
       else path ++ "/" ++ b)
    p a.

(** [string.ascii_uppercase] *)
Definition ascii_uppercase : string := "ABCDEFGHIJKLMNOPQRSTUVWXYZ".

(** ** Numeric leaves *)


Definition transition_state_leaf (num : pyval) : result string :=
  py_assert (is_integral num && ((0 <=? int_val num) && (int_val num <=? 99)))
    (Ok (format_0wd 2 (int_val num))).


Definition zmatrix_leaf (num : pyval) : result string :=
  py_assert (is_integral num && ((0 <=? int_val num) && (int_val num <=? 99)))
    (Ok (format_0wd 2 (int_val num))).


Definition vrctst_leaf (num : pyval) : result string :=
  py_assert (is_integral num && ((0 <=? int_val num) && (int_val num <=? 99)))
    (Ok (format_0wd 2 (int_val num))).

(** ** Run file system *)


Definition subrun_leaf (macro_idx micro_idx : pyval) : result string :=
  py_assert (is_integral macro_idx)
    (py_assert (is_integral micro_idx)
       (py_assert (int_val macro_idx <? 26)
          (macro_str <- str_getitem ascii_uppercase (int_val macro_idx) ;;
           let micro_str := format_fill0_right 2 (int_val micro_idx) in
           Ok (str_join "" [String macro_str EmptyString; micro_str])))).

Definition get_next_build_number (num : Z) : Z := num mod 10.

(** ** Constant trunks *)



(** ** Scan leaves *)

(** Division of naturals rounded to nearest, ties to even. *)
Definition div_half_even (num den : N) : N :=
  let q := (num / den)%N in
  let r := (num mod den)%N in
  if (den <? 2 * r)%N || ((2 * r =? den)%N && N.odd q)
  then (q + 1)%N else q.

(** The magnitude [m * 2^e], in hundredths, correctly rounded. *)
Definition hundredths (m : positive) (e : Z) : N :=
  match e with
  | Z0 => (Npos m * 100)%N
  | Zpos p => (Npos m * 100 * 2 ^ Npos p)%N
  | Zneg p => div_half_even (Npos m * 100) (2 ^ Npos p)
  end.

Definition sign_str (s : bool) : string := if s then "-" else "".

(** Format spec [.2f] on a binary float: the exact value rounded to
    two decimals, the sign kept also where the digits are all zero. *)
Definition format_2f (val : spec_float) : string :=
  match val with
  | S754_nan => "nan"
  | S754_infinity s => sign_str s ++ "inf"
  | S754_zero s => sign_str s ++ "0.00"
  | S754_finite s m e =>
      let h := hundredths m e in
      sign_str s ++ digits (h / 100) ++ "." ++ pad_left "0" 2 (digits (h mod 100))
  end.

Definition scan_leaf (coo_vals : list spec_float) : string :=
  str_join "_" (map format_2f coo_vals).

Definition cscan_leaf (coo_vals : list spec_float) : string :=
  str_join "_" (map format_2f coo_vals).

(** ** Characters of directory names *)

Definition is_alnum (c : ascii) : bool :=
  let n := nat_of_ascii c in
  ((48 <=? n) && (n <=? 57) || (65 <=? n) && (n <=? 90)
   || (97 <=? n) && (n <=? 122))%nat.

(** Alphanumerics, underscore, hyphen and ['@']. *)
Definition fs_safe (c : ascii) : bool :=
  is_alnum c || Ascii.eqb c "_" || Ascii.eqb c "-" || Ascii.eqb c "@".


Definition all_chars (p : ascii -> bool) (s : string) : bool :=
  forallb p (list_ascii_of_string s).

(** ** Identifier validation *)

Section Identifiers.

(** [autofile.schema._util.is_random_string_identifier] *)
Variable _is_random_string_identifier : string -> bool.

Definition conformer_branch (rid : string) : result string :=
  c <- str_getitem rid 0 ;;
  py_assert (Ascii.eqb c "r")
    (py_assert (_is_random_string_identifier (str_tail rid))
       (Ok rid)).

Definition conformer_leaf (cid : string) : result string :=
  c <- str_getitem cid 0 ;;
  py_assert (Ascii.eqb c "c")
    (py_assert (_is_random_string_identifier (str_tail cid))
       (Ok cid)).

Definition tau_leaf (tid : string) : result string :=
  c <- str_getitem tid 0 ;;
  py_assert (Ascii.eqb c "t")
    (py_assert (_is_random_string_identifier (str_tail tid))
       (Ok tid)).

End Identifiers.

(** ** Ordering of tuples *)

(** Python orders tuples lexicographically: the first position where
    the elements differ decides, and a proper prefix is smaller. *)
Fixpoint lex_compare {A : Type} (cmp : A -> A -> comparison)
    (l1 l2 : list A) : comparison :=
  match l1, l2 with
  | [], [] => Eq
  | [], _ :: _ => Lt
  | _ :: _, [] => Gt
  | x :: t1, y :: t2 =>
      match cmp x y with
      | Eq => lex_compare cmp t1 t2
      | c => c
      end
  end.

Definition then_compare (c : comparison) (k : comparison) : comparison :=
  match c with
  | Eq => k
  | _ => c
  end.

(** A side of a reaction: identifiers, charges and multiplicities. *)
Definition side : Type := list string * list Z * list Z.

(** The tuple [(len(ichs), ichs, chgs, muls)]. *)
Definition sortable : Type := nat * list string * list Z * list Z.

Definition sortable_compare (r1 r2 : sortable) : comparison :=
  let '(n1, ichs1, chgs1, muls1) := r1 in
  let '(n2, ichs2, chgs2, muls2) := r2 in
  then_compare (Nat.compare n1 n2)
    (then_compare (lex_compare String.compare ichs1 ichs2)
       (then_compare (lex_compare Z.compare chgs1 chgs2)
          (lex_compare Z.compare muls1 muls2))).

(** [r1 > r2] *)
Definition sortable_gt (r1 r2 : sortable) : bool :=
  match sortable_compare r1 r2 with
  | Gt => true
  | _ => false
  end.

(** [tuple(xs[idx] for idx in idxs)] *)
Fixpoint take_by_index {A : Type} (xs : list A) (idxs : list nat)
    : result (list A) :=
  match idxs with
  | [] => Ok []
  | idx :: rest =>
      match nth_error xs idx with
      | Some x => ys <- take_by_index xs rest ;; Ok (x :: ys)
      | None => Raise IndexError
      end
  end.

Fixpoint list_eqb {A : Type} (eqb : A -> A -> bool) (l1 l2 : list A) : bool :=
  match l1, l2 with
  | [], [] => true
  | x :: t1, y :: t2 => eqb x y && list_eqb eqb t1 t2
  | _, _ => false
  end.

(** ** Species and reactions *)

Section Chemistry.

(** [autofile._safemode.safemode_is_on()] *)
Variable safemode_is_on : bool.

(** The chemical identifier library [automol.chi] and
    [automol.inchi_key]. *)
Variable argsort : list string -> list nat.
Variable sorted_ : list string -> list string.
Variable is_standard_form : string -> bool.
Variable is_complete : string -> bool.
Variable standard_form : string -> string.
Variable join : list string -> string.
Variable inchi_key : string -> string.
Variable formula_layer : string -> string.
Variable first_hash : string -> string.
Variable second_hash_with_extension : string -> string.

(** [autofile.schema._util.is_valid_inchi_multiplicity(ich, mul, chg)];
    the charge is [None] where the caller leaves it to its default. *)
Variable _is_valid_inchi_multiplicity : string -> Z -> option Z -> bool.

Definition species_leaf (ich : string) (chg mul : pyval) : result string :=
  _ <- (if safemode_is_on
        then py_assert (is_standard_form ich)
               (py_assert (is_complete ich) (Ok tt))
        else Ok tt) ;;
  py_assert (is_integral chg)
    (py_assert (is_integral mul)
       (py_assert
          (_is_valid_inchi_multiplicity ich (int_val mul)
             (Some (int_val chg)))
          (let ick := inchi_key ich in
           let chg_str := str_integral chg in
           let mul_str := str_integral mul in
           Ok (path_join (formula_layer ich)
                 [first_hash ick; chg_str; mul_str;
                  second_hash_with_extension ick])))).

Definition _sort_together (ichs : list string) (chgs muls : list Z)
    : result side :=
  let idxs := argsort ichs in
  ichs' <- take_by_index ichs idxs ;;
  chgs' <- take_by_index chgs idxs ;;
  muls' <- take_by_index muls idxs ;;
  Ok (ichs', chgs', muls').

Definition _sortable_representation (ichs : list string) (chgs muls : list Z)
    : result sortable :=
  let idxs := argsort ichs in
  ichs' <- take_by_index ichs idxs ;;
  Ok (List.length ichs', ichs', chgs, muls).

(** [len(rxn_ichs) == len(rxn_chgs) == len(rxn_muls) == 2] *)
Definition two_sided {A B C : Type} (a : list A) (b : list B) (c : list C)
    : bool :=
  ((List.length a =? List.length b) && (List.length b =? List.length c) && (List.length c =? 2))%nat.

Definition reaction_is_reversed
    (rxn_ichs : list (list string)) (rxn_chgs rxn_muls : list (list Z))
    : result bool :=
  py_assert (two_sided rxn_ichs rxn_chgs rxn_muls)
    match rxn_ichs, rxn_chgs, rxn_muls with
    | [ichs1; ichs2], [chgs1; chgs2], [muls1; muls2] =>
        '(ichs1, chgs1, muls1) <- _sort_together ichs1 chgs1 muls1 ;;
        '(ichs2, chgs2, muls2) <- _sort_together ichs2 chgs2 muls2 ;;
        rep1 <- _sortable_representation ichs1 chgs1 muls1 ;;
        rep2 <- _sortable_representation ichs2 chgs2 muls2 ;;
        Ok (sortable_gt rep1 rep2)
    | _, _, _ => Raise ValueError
    end.

(** The three tuples a reaction is passed around as. *)
Definition reaction : Type :=
  list (list string) * list (list Z) * list (list Z).

Definition sort_together
    (rxn_ichs : list (list string)) (rxn_chgs rxn_muls : list (list Z))
    : result reaction :=
  py_assert (two_sided rxn_ichs rxn_chgs rxn_muls)
    match rxn_ichs, rxn_chgs, rxn_muls with
    | [ichs1; ichs2], [chgs1; chgs2], [muls1; muls2] =>
        '(ichs1, chgs1, muls1) <- _sort_together ichs1 chgs1 muls1 ;;
        '(ichs2, chgs2, muls2) <- _sort_together ichs2 chgs2 muls2 ;;
        reversed <- reaction_is_reversed rxn_ichs rxn_chgs rxn_muls ;;
        if reversed
        then Ok ([ichs2; ichs1], [chgs2; chgs1], [muls2; muls1])
        else Ok ([ichs1; ichs2], [chgs1; chgs2], [muls1; muls2])
    | _, _, _ => Raise ValueError
    end.

(** Charges and multiplicities are integers here, so the two
    [isinstance] assertions of the source hold and are left out. *)
Definition _reactant_leaf (ichs : list string) (chgs muls : list Z)
    : result string :=
  _ <- (if safemode_is_on
        then py_assert
               (forallb (fun ich => is_standard_form ich && is_complete ich)
                  ichs)
               (py_assert (list_eqb String.eqb ichs (sorted_ ichs)) (Ok tt))
        else Ok tt) ;;
  py_assert
    ((List.length ichs =? List.length chgs)
     && (List.length chgs =? List.length muls))%nat
    (py_assert
       (forallb
          (fun '(ich, mul) => _is_valid_inchi_multiplicity ich mul None)
          (combine ichs muls))
       (let ich := standard_form (join ichs) in
        let ick := inchi_key ich in
        let chg_str := str_join "_" (map str_int chgs) in
        let mul_str := str_join "_" (map str_int muls) in
        Ok (path_join (formula_layer ich)
              [first_hash ick; chg_str; mul_str;
               second_hash_with_extension ick]))).

Definition reaction_eqb (x y : reaction) : bool :=
  let '(xi, xc, xm) := x in
  let '(yi, yc, ym) := y in
  list_eqb (list_eqb String.eqb) xi yi
  && list_eqb (list_eqb Z.eqb) xc yc
  && list_eqb (list_eqb Z.eqb) xm ym.

Definition reaction_leaf
    (rxn_ichs : list (list string)) (rxn_chgs rxn_muls : list (list Z))
    (ts_mul : Z) : result string :=
  _ <- (if safemode_is_on
        then sorted <- sort_together rxn_ichs rxn_chgs rxn_muls ;;
             py_assert (reaction_eqb (rxn_ichs, rxn_chgs, rxn_muls) sorted)
               (Ok tt)
        else Ok tt) ;;
  match rxn_ichs, rxn_chgs, rxn_muls with
  | [ichs1; ichs2], [chgs1; chgs2], [muls1; muls2] =>
      leaf1 <- _reactant_leaf ichs1 chgs1 muls1 ;;
      leaf2 <- _reactant_leaf ichs2 chgs2 muls2 ;;
      Ok (path_join leaf1 [leaf2; str_int ts_mul])
  | _, _, _ => Raise ValueError
  end.

(** [reaction_leaf] applied to the three tuples of a reaction. *)
Definition reaction_leaf_of (rxn : reaction) (ts_mul : Z) : result string :=
  let '(rxn_ichs, rxn_chgs, rxn_muls) := rxn in
  reaction_leaf rxn_ichs rxn_chgs rxn_muls ts_mul.

End Chemistry.

(** [sort_together] applied to the three tuples of a reaction. *)
Definition sort_together_of (argsort : list string -> list nat)
    (rxn : reaction) : result reaction :=
  let '(rxn_ichs, rxn_chgs, rxn_muls) := rxn in
  sort_together argsort rxn_ichs rxn_chgs rxn_muls.

(** The formal reverse of a reaction: the sides exchanged. *)
Definition reverse_reaction (rxn : reaction) : reaction :=
  let '(rxn_ichs, rxn_chgs, rxn_muls) := rxn in
  (rev rxn_ichs, rev rxn_chgs, rev rxn_muls).

(** The sortable representation attached to a sorted side. *)
Definition sortable_of (s : side) : sortable :=
  let '(ichs, chgs, muls) := s in (List.length ichs, ichs, chgs, muls).

(** The reaction made of two sides, in the given order. *)
Definition reaction_of (s1 s2 : side) : reaction :=
  let '(ichs1, chgs1, muls1) := s1 in
  let '(ichs2, chgs2, muls2) := s2 in
  ([ichs1; ichs2], [chgs1; chgs2], [muls1; muls2]).

(** ** A reference sort order

    The identifier library is outside this module.  Its [argsort] is
    only required to meet the contract stated with the theorems below;
    a stable insertion sort of the positions is one order that does. *)

Section StableArgsort.

Variable A : Type.
Variable leb : A -> A -> bool.

Fixpoint insert_keyed (p : nat * A) (l : list (nat * A)) : list (nat * A) :=
  match l with
  | [] => [p]
  | q :: t => if leb (snd p) (snd q) then p :: q :: t
              else q :: insert_keyed p t
  end.

Definition sort_keyed (l : list (nat * A)) : list (nat * A) :=
  fold_right insert_keyed [] l.

Definition enumerate_from (start : nat) (l : list A) : list (nat * A) :=
  combine (seq start (List.length l)) l.

Definition stable_argsort (l : list A) : list nat :=
  map fst (sort_keyed (enumerate_from 0 l)).

(** The order of two numbered elements. *)
Definition le_keyed (p q : nat * A) : Prop := leb (snd p) (snd q) = true.

End StableArgsort.

Arguments insert_keyed {A} leb p l.
Arguments sort_keyed {A} leb l.
Arguments enumerate_from {A} start l.
Arguments stable_argsort {A} leb l.
Arguments le_keyed {A} leb p q.

(** Positions ordered by the code points of the identifiers. *)
Definition lex_argsort : list string -> list nat := stable_argsort String.leb.

(** Modelled from the spec: [autofile.schema._util.is_valid_inchi_multiplicity],
    whose source is not part of this module.  The spec asks that the
    charge/multiplicity combination be chemically valid for the
    identifier by the electron count parity rule: the electrons left
    once the [mul - 1] unpaired ones are set aside come in pairs.  The
    electron count of the neutral species is looked up in a table; an
    omitted charge is neutral. *)
Definition parity_valid (electrons : string -> Z)
    (ich : string) (mul : Z) (chg : option Z) : bool :=
  let c := match chg with Some c => c | None => 0 end in
  (1 <=? mul) && Z.even (electrons ich - c - (mul - 1)).

(** Electron counts of a few small species. *)
Definition electron_table (ich : string) : Z :=
  if String.eqb ich "InChI=1S/CH4/h1H4" then 10
  else if String.eqb ich "InChI=1S/HO/h1H" then 9
  else if String.eqb ich "InChI=1S/CH3/h1H3" then 9
  else if String.eqb ich "InChI=1S/H2O/h1H2" then 10
  else if String.eqb ich "InChI=1S/H" then 1
  else 0.

(** The decimal digit character of a number below ten. *)
Definition digit_char (d : Z) : ascii := ascii_of_nat (48 + Z.to_nat d).

(** The two-digit, zero-padded decimal numeral of a number below one
    hundred, written out digit by digit. *)
Definition two_digits (n : Z) : string :=
  String (digit_char (n / 10)) (String (digit_char (n mod 10)) EmptyString).

(** The uppercase letter at a position of the alphabet. *)
Definition letter_at (pos : Z) : ascii := ascii_of_nat (65 + Z.to_nat pos).

(** A random-string-identifier predicate to run the validators on:
    a non-empty run of alphanumerics. *)
Definition alnum_identifier (s : string) : bool :=
  negb (String.eqb s "") && all_chars is_alnum s.

(** The reaction CH4 + OH = CH3 + H2O, side by side. *)
Definition methane_hydroxyl : side :=
  (["InChI=1S/CH4/h1H4"; "InChI=1S/HO/h1H"], [0; 0], [1; 2]).

Definition methyl_water : side :=
  (["InChI=1S/CH3/h1H3"; "InChI=1S/H2O/h1H2"], [0; 0], [2; 1]).

(** The floats 1.005 and 2.0. *)
Definition float_1_005 : spec_float :=
  S754_finite false 4526117625507348 (-52).

Definition float_2_0 : spec_float :=
  S754_finite false 4503599627370496 (-51).

(** ** Text case and slices

    Strings are sequences of bytes here, and the case mapping and the
    slice below are those of Python on ASCII text, where a character is
    a byte. *)

Definition is_ascii (s : string) : bool :=
  all_chars (fun c => (nat_of_ascii c <? 128)%nat) s.

(** The letters [a] to [z]. *)
Definition is_lower (c : ascii) : bool :=
  let n := nat_of_ascii c in ((97 <=? n) && (n <=? 122))%nat.

Definition char_upper (c : ascii) : ascii :=
  if is_lower c then ascii_of_nat (nat_of_ascii c - 32) else c.

(** [s.upper()] *)
Fixpoint str_upper (s : string) : string :=
  match s with
  | EmptyString => EmptyString
  | String c t => String (char_upper c) (str_upper t)
  end.

(** [s[:n]] *)
Fixpoint str_prefix (n : nat) (s : string) : string :=
  match n, s with
  | S k, String c t => String c (str_prefix k t)
  | _, _ => EmptyString
  end.

(** ** Build and run names *)

Definition build_trunk (head : string) : string :=
  str_prefix 4 (str_upper head).

Definition build_branch (_string : string) : string :=
  str_upper _string.

Section Run.

(** [elstruct.Job.contains] *)
Variable job_contains : string -> bool.

Definition run_leaf (job : string) : result string :=
  py_assert (job_contains job)
    (let dir_name := str_upper (str_prefix 4 job) in
     Ok dir_name).

End Run.

(** ** New identifiers

    [_random_string_identifier()] draws a fresh token at each call; the
    token drawn is an argument here. *)

Definition generate_new_conformer_id (drawn : string) : string :=
  "c" ++ drawn.

Definition generate_new_ring_id (drawn : string) : string :=
  "r" ++ drawn.

Definition generate_new_tau_id (drawn : string) : string :=
  "t" ++ drawn.

(** ** Scan branches *)

Fixpoint insert_sorted {A : Type} (leb : A -> A -> bool) (x : A) (l : list A)
    : list A :=
  match l with
  | [] => [x]
  | y :: t => if leb x y then x :: y :: t else y :: insert_sorted leb x t
  end.

(** [sorted(items)]: a stable sort. *)
Definition py_sorted {A : Type} (leb : A -> A -> bool) (items : list A)
    : list A :=
  fold_right (insert_sorted leb) [] items.

Definition scan_branch (coo_names : list string) : string :=
  str_join "_" (py_sorted String.leb coo_names).

Definition cscan_branch2 (coo_names : list string) : string :=
  str_join "_" (py_sorted String.leb coo_names).

(** ** Theory leaves *)

(** The values [orb_type] is told apart by: a string, a list, or
    anything else. *)
Inductive orb_val : Type :=
| OrbStr (s : string)
| OrbList (items : list pyval)
| OrbOther.

(** [isinstance(x, int)]: [bool] is a subclass of [int]. *)
Definition is_int (v : pyval) : bool :=
  match v with
  | PyInt _ | PyBool _ => true
  | _ => false
  end.

Section Theory.

(** [elstruct.Method.evaluate_method_type], [elstruct.Method.contains]
    and [elstruct.Basis.contains] *)
Variable evaluate_method_type : string -> string * list string.
Variable method_contains : string -> bool.
Variable basis_contains : string -> bool.

(** [autofile.schema._util.short_hash], on a string and on a list *)
Variable _short_hash : string -> string.
Variable _short_hash_list : list pyval -> string.

(** [str.lower] and [str.upper] *)
Variable lower : string -> string.
Variable upper : string -> string.

Definition theory_leaf (method basis : string) (orb_type : orb_val)
    : result string :=
  let '(core_method, pfxs) := evaluate_method_type method in
  let hashed_pfx :=
    match pfxs with
    | [] => ""
    | _ :: _ =>
        let ord_pfx_str := str_join "" pfxs in
        _short_hash (lower ord_pfx_str) ++ "-"
    end in
  py_assert (method_contains core_method)
    (py_assert (basis_contains basis)
       (orb_hash <-
          match orb_type with
          | OrbStr "R" => Ok "R"
          | OrbStr "U" => Ok "U"
          | OrbList items =>
              py_assert ((List.length items =? 2)%nat && forallb is_int items)
                (Ok ("@" ++ upper (_short_hash_list items)))
          | _ => Raise AssertionError
          end ;;
        let dir_name :=
          str_join "" [hashed_pfx; _short_hash (lower core_method);
                       _short_hash (lower basis); orb_hash] in
        Ok dir_name)).

(** The part of the name that method and basis decide. *)
Definition theory_front (method basis : string) : string :=
  let '(core_method, pfxs) := evaluate_method_type method in
  match pfxs with
  | [] => ""
  | _ :: _ => _short_hash (lower (str_join "" pfxs)) ++ "-"
  end ++ _short_hash (lower core_method) ++ _short_hash (lower basis).

End Theory.

(** The orbital types [theory_leaf] takes: ['R'], ['U'], or a list of
    two integers. *)
Definition well_formed_orb (orb_type : orb_val) : bool :=
  match orb_type with
  | OrbStr s => String.eqb s "R" || String.eqb s "U"
  | OrbList items => (List.length items =? 2)%nat && forallb is_int items
  | OrbOther => false
  end.

(** The separator of the scan leaves is kept out of a text. *)
Definition not_sep (c : ascii) : bool := negb (Ascii.eqb c "_").

(** Agreement of two comparisons. *)
Definition same_order (c1 c2 : comparison) : bool :=
  match c1, c2 with
  | Eq, Eq | Lt, Lt | Gt, Gt => true
  | _, _ => false
  end.

(** ** Constrained scans, first branch

    A dict is given as its items in insertion order, the keys distinct. *)

Fixpoint map_result {A B : Type} (f : A -> result B) (l : list A)
    : result (list B) :=
  match l with
  | [] => Ok []
  | x :: t => y <- f x ;; ys <- map_result f t ;; Ok (y :: ys)
  end.

(** [d[k]] *)
Fixpoint dict_get {V : Type} (d : list (string * V)) (k : string) : result V :=
  match d with
  | [] => Raise KeyError
  | (k', v) :: t => if String.eqb k' k then Ok v else dict_get t k
  end.

(** The dict [{'R': 0, 'A': 1, 'D': 2}], looked up. *)
Definition coo_typ_sort_dct (typ : ascii) : result Z :=
  if Ascii.eqb typ "R" then Ok 0
  else if Ascii.eqb typ "A" then Ok 1
  else if Ascii.eqb typ "D" then Ok 2
  else Raise KeyError.

(** [k1 <= k2] on pairs of integers. *)
Definition key_leb (k1 k2 : Z * Z) : bool :=
  match Z.compare (fst k1) (fst k2) with
  | Lt => true
  | Eq => Z.leb (snd k1) (snd k2)
  | Gt => false
  end.

Section ConstrainedScan.

(** The built-ins [int], on a string, and [float(round(val, 2))] *)
Variable py_int : string -> result Z.
Variable round_2 : spec_float -> spec_float.

(** [autofile.schema._util.short_hash], on a dict *)
Variable _short_hash_dict : list (string * spec_float) -> string.

Definition _sort_key (coo_name : string) : result (Z * Z) :=
  typ <- str_getitem coo_name 0 ;;
  num <- py_int (str_tail coo_name) ;;
  code <- coo_typ_sort_dct typ ;;
  Ok (code, num).

(** [sorted(names, key=_sort_key)]: the keys are worked out first, name
    by name, and the names then put in the order of their keys. *)
Definition sorted_by_key (names : list string) : result (list string) :=
  keys <- map_result _sort_key names ;;
  Ok (map snd
        (py_sorted (fun p q => key_leb (fst p) (fst q)) (combine keys names))).

Definition cscan_branch1 (cons_coo_val_dct : list (string * spec_float))
    : result string :=
  cons_coo_names <- sorted_by_key (map fst cons_coo_val_dct) ;;
  cons_coo_vals <- map_result (dict_get cons_coo_val_dct) cons_coo_names ;;
  let cons_coo_vals := map round_2 cons_coo_vals in
  let cons_coo_val_dct := combine cons_coo_names cons_coo_vals in
  Ok (_short_hash_dict cons_coo_val_dct).

End ConstrainedScan.

(** ** Build leaves *)

Section BuildLeaf.

(** [str] of a float *)
Variable float_str : spec_float -> string.



End BuildLeaf.

(** [str] of a float whose value is a whole number below [10^15]: the
    digits of the number followed by [.0], as in ['2.0'], the sign kept
    on zero.  [None] for every other float, whose text is not
    modelled. *)
Definition whole_float_str (val : spec_float) : option string :=
  let text (s : bool) (n : N) : option string :=
    if (n <? 10 ^ 15)%N then Some (sign_str s ++ digits n ++ ".0") else None in
  match val with
  | S754_zero s => text s 0%N
  | S754_finite s m Z0 => text s (Npos m)
  | S754_finite s m (Zpos p) => text s (Npos m * 2 ^ Npos p)%N
  | S754_finite s m (Zneg p) =>
      if (Npos m mod 2 ^ Npos p =? 0)%N then text s (Npos m / 2 ^ Npos p)%N
      else None
  | _ => None
  end.

(** ** Characters of paths *)



(** ** Properties of the Python built-ins *)

Lemma bind_ok {A B : Type} (r : result A) (k : A -> result B) (b : B) :
  bind r k = Ok b -> exists a, r = Ok a /\ k a = Ok b.
Proof.
  destruct r as [a | e]; simpl; intros H.
  - exists a; split; [reflexivity | exact H].
  - discriminate H.
Qed.

Lemma py_assert_ok {A : Type} (cond : bool) (k : result A) (a : A) :
  py_assert cond k = Ok a -> cond = true /\ k = Ok a.
Proof.
  destruct cond; simpl; intros H; [split; auto | discriminate H].
Qed.

Section LexCompare.

Variable A : Type.
Variable cmp : A -> A -> comparison.
Hypothesis cmp_eq : forall x y, cmp x y = Eq -> x = y.
Hypothesis cmp_antisym : forall x y, cmp y x = CompOpp (cmp x y).

Lemma lex_compare_eq (l1 l2 : list A) :
  lex_compare cmp l1 l2 = Eq -> l1 = l2.
Proof.
  revert l2; induction l1 as [| x t1 IH]; intros [| y t2]; simpl;
    try discriminate; auto.
  destruct (cmp x y) eqn:E; try discriminate.
  intros H. apply cmp_eq in E. apply IH in H. congruence.
Qed.

Lemma lex_compare_antisym (l1 l2 : list A) :
  lex_compare cmp l2 l1 = CompOpp (lex_compare cmp l1 l2).
Proof.
  revert l2; induction l1 as [| x t1 IH]; intros [| y t2]; simpl; auto.
  rewrite (cmp_antisym x y). destruct (cmp x y); simpl; auto.
Qed.

End LexCompare.

Lemma then_compare_opp (c k : comparison) :
  CompOpp (then_compare c k) = then_compare (CompOpp c) (CompOpp k).
Proof. destruct c; reflexivity. Qed.

Lemma then_compare_eq (c k : comparison) :
  then_compare c k = Eq -> c = Eq /\ k = Eq.
Proof. destruct c; simpl; intros H; try discriminate; auto. Qed.

Lemma sortable_compare_antisym (r1 r2 : sortable) :
  sortable_compare r2 r1 = CompOpp (sortable_compare r1 r2).
Proof.
  destruct r1 as [[[n1 i1] c1] m1], r2 as [[[n2 i2] c2] m2].
  unfold sortable_compare.
  rewrite !then_compare_opp.
  rewrite (Nat.compare_antisym n1 n2).
  rewrite (lex_compare_antisym string String.compare
             (fun x y => String.compare_antisym y x) i1 i2).
  rewrite (lex_compare_antisym Z Z.compare
             (fun x y => Z.compare_antisym x y) c1 c2).
  rewrite (lex_compare_antisym Z Z.compare
             (fun x y => Z.compare_antisym x y) m1 m2).
  reflexivity.
Qed.

Lemma sortable_compare_eq (r1 r2 : sortable) :
  sortable_compare r1 r2 = Eq -> r1 = r2.
Proof.
  destruct r1 as [[[n1 i1] c1] m1], r2 as [[[n2 i2] c2] m2].
  unfold sortable_compare. intros H.
  apply then_compare_eq in H as [Hn H].
  apply then_compare_eq in H as [Hi H].
  apply then_compare_eq in H as [Hc Hm].
  apply Nat.compare_eq_iff in Hn.
  apply lex_compare_eq in Hi; [| intros x y; apply String.compare_eq_iff].
  apply lex_compare_eq in Hc; [| intros x y; apply Z.compare_eq_iff].
  apply lex_compare_eq in Hm; [| intros x y; apply Z.compare_eq_iff].
  congruence.
Qed.

(** [>] on the sortable tuples is asymmetric ... *)
Lemma sortable_gt_asym (r1 r2 : sortable) :
  sortable_gt r1 r2 = true -> sortable_gt r2 r1 = false.
Proof.
  unfold sortable_gt. rewrite (sortable_compare_antisym r1 r2).
  destruct (sortable_compare r1 r2); simpl; congruence.
Qed.

(** ... and total: two tuples neither of which is greater are equal. *)
Lemma sortable_gt_total (r1 r2 : sortable) :
  sortable_gt r1 r2 = false -> sortable_gt r2 r1 = false -> r1 = r2.
Proof.
  unfold sortable_gt. rewrite (sortable_compare_antisym r1 r2).
  destruct (sortable_compare r1 r2) eqn:E; simpl; try congruence.
  intros _ _. apply sortable_compare_eq; exact E.
Qed.

(** ** Selection by position *)

Lemma take_by_index_length {A : Type} (xs : list A) (idxs : list nat)
    (ys : list A) :
  take_by_index xs idxs = Ok ys -> List.length ys = List.length idxs.
Proof.
  revert ys; induction idxs as [| i rest IH]; simpl; intros ys H.
  - injection H as <-. reflexivity.
  - destruct (nth_error xs i); [| discriminate H].
    apply bind_ok in H as (zs & Hz & H). injection H as <-.
    simpl. f_equal. apply IH. exact Hz.
Qed.

Lemma take_by_index_raise {A : Type} (xs : list A) (idxs : list nat) (e : exn) :
  take_by_index xs idxs = Raise e -> e = IndexError.
Proof.
  induction idxs as [| i rest IH]; simpl; [discriminate |].
  destruct (nth_error xs i); [| congruence].
  destruct (take_by_index xs rest); simpl; [discriminate |].
  intros H. apply IH. congruence.
Qed.

Lemma take_by_index_in_range {A : Type} (xs : list A) (idxs : list nat) :
  Forall (fun i => (i < List.length xs)%nat) idxs ->
  exists ys, take_by_index xs idxs = Ok ys.
Proof.
  induction 1 as [| i rest Hi _ [ys IH]]; simpl.
  - exists []. reflexivity.
  - destruct (nth_error xs i) eqn:E.
    + rewrite IH. simpl. eexists. reflexivity.
    + apply nth_error_None in E. lia.
Qed.

Lemma take_by_index_seq {A : Type} (pre xs post : list A) :
  take_by_index (pre ++ xs ++ post)%list (seq (List.length pre) (List.length xs))
  = Ok xs.
Proof.
  revert pre; induction xs as [| x t IH]; intros pre; simpl.
  - reflexivity.
  - rewrite nth_error_app2 by lia. rewrite Nat.sub_diag. simpl.
    specialize (IH (pre ++ [x])%list).
    rewrite <- app_assoc, length_app in IH. simpl in IH.
    rewrite Nat.add_1_r in IH. rewrite IH. reflexivity.
Qed.

(** Selecting every position in order gives the tuple back. *)
Lemma take_by_index_all {A : Type} (xs : list A) (n : nat) :
  n = List.length xs -> take_by_index xs (seq 0 n) = Ok xs.
Proof.
  intros ->. pose proof (take_by_index_seq [] xs []) as H.
  simpl in H. rewrite app_nil_r in H. exact H.
Qed.

(** ** Canonical order of a reaction *)

Section Canonicalization.

Variable argsort : list string -> list nat.

(** Contract of the identifier library: the positions returned are
    positions of the argument, ... *)
Hypothesis argsort_range :
  forall ichs, Forall (fun i => (i < List.length ichs)%nat) (argsort ichs).

(** ... and identifiers already in sort order are left where they
    are. *)
Hypothesis argsort_sorted :
  forall ichs ichs',
    take_by_index ichs (argsort ichs) = Ok ichs' ->
    argsort ichs' = seq 0 (List.length ichs').

Lemma _sort_together_raise ichs chgs muls e :
  _sort_together argsort ichs chgs muls = Raise e -> e = IndexError.
Proof.
  unfold _sort_together.
  destruct (take_by_index ichs (argsort ichs)) eqn:E1; simpl;
    [| intros H; injection H as <-; eapply take_by_index_raise; eauto].
  destruct (take_by_index chgs (argsort ichs)) eqn:E2; simpl;
    [| intros H; injection H as <-; eapply take_by_index_raise; eauto].
  destruct (take_by_index muls (argsort ichs)) eqn:E3; simpl;
    [discriminate
    | intros H; injection H as <-; eapply take_by_index_raise; eauto].
Qed.

(** A sorted side is a fixed point of the per-side sort, and its
    sortable representation is read off directly. *)
Lemma _sort_together_sorted ichs chgs muls ichs' chgs' muls' :
  _sort_together argsort ichs chgs muls = Ok (ichs', chgs', muls') ->
  _sort_together argsort ichs' chgs' muls' = Ok (ichs', chgs', muls')
  /\ _sortable_representation argsort ichs' chgs' muls'
     = Ok (List.length ichs', ichs', chgs', muls').
Proof.
  unfold _sort_together, _sortable_representation. intros H.
  apply bind_ok in H as (a & Ha & H).
  apply bind_ok in H as (b & Hb & H).
  apply bind_ok in H as (c & Hc & H).
  injection H as <- <- <-.
  pose proof (take_by_index_length _ _ _ Ha) as La.
  pose proof (take_by_index_length _ _ _ Hb) as Lb.
  pose proof (take_by_index_length _ _ _ Hc) as Lc.
  rewrite (argsort_sorted _ _ Ha).
  rewrite (take_by_index_all a) by reflexivity.
  rewrite (take_by_index_all b) by congruence.
  rewrite (take_by_index_all c) by congruence.
  split; reflexivity.
Qed.

Lemma _sort_together_total ichs chgs muls :
  List.length chgs = List.length ichs ->
  List.length muls = List.length ichs ->
  exists s, _sort_together argsort ichs chgs muls = Ok s.
Proof.
  intros Lc Lm. unfold _sort_together.
  pose proof (argsort_range ichs) as R.
  destruct (take_by_index_in_range ichs _ R) as [a ->].
  destruct (take_by_index_in_range chgs (argsort ichs)) as [b ->];
    [rewrite Lc; exact R |].
  destruct (take_by_index_in_range muls (argsort ichs)) as [c ->];
    [rewrite Lm; exact R |].
  simpl. eexists. reflexivity.
Qed.


Lemma reaction_is_reversed_sorted ichs1 ichs2 chgs1 chgs2 muls1 muls2 s1 s2 :
  _sort_together argsort ichs1 chgs1 muls1 = Ok s1 ->
  _sort_together argsort ichs2 chgs2 muls2 = Ok s2 ->
  reaction_is_reversed argsort [ichs1; ichs2] [chgs1; chgs2] [muls1; muls2]
  = Ok (sortable_gt (sortable_of s1) (sortable_of s2)).
Proof.
  intros H1 H2. unfold reaction_is_reversed. simpl.
  rewrite H1, H2. simpl.
  destruct s1 as [[a1 b1] d1], s2 as [[a2 b2] d2].
  destruct (_sort_together_sorted _ _ _ _ _ _ H1) as [_ ->].
  destruct (_sort_together_sorted _ _ _ _ _ _ H2) as [_ ->].
  reflexivity.
Qed.

Lemma sort_together_sorted ichs1 ichs2 chgs1 chgs2 muls1 muls2 s1 s2 :
  _sort_together argsort ichs1 chgs1 muls1 = Ok s1 ->
  _sort_together argsort ichs2 chgs2 muls2 = Ok s2 ->
  sort_together argsort [ichs1; ichs2] [chgs1; chgs2] [muls1; muls2]
  = Ok (if sortable_gt (sortable_of s1) (sortable_of s2)
        then reaction_of s2 s1 else reaction_of s1 s2).
Proof.
  intros H1 H2. unfold sort_together.
  rewrite (reaction_is_reversed_sorted _ _ _ _ _ _ _ _ H1 H2).
  simpl. rewrite H1, H2. simpl.
  destruct s1 as [[a1 b1] d1], s2 as [[a2 b2] d2]. simpl.
  destruct (sortable_gt _ _); reflexivity.
Qed.

(** Sides with the same sortable representation are the same side. *)
Lemma sortable_of_inj (s1 s2 : side) :
  sortable_of s1 = sortable_of s2 -> s1 = s2.
Proof.
  destruct s1 as [[a1 b1] d1], s2 as [[a2 b2] d2]. simpl. congruence.
Qed.

(** Exchanging the two sides does not change the canonical order. *)
Lemma sort_together_swap ichs1 ichs2 chgs1 chgs2 muls1 muls2 :
  sort_together argsort [ichs2; ichs1] [chgs2; chgs1] [muls2; muls1]
  = sort_together argsort [ichs1; ichs2] [chgs1; chgs2] [muls1; muls2].
Proof.
  destruct (_sort_together argsort ichs1 chgs1 muls1) as [s1 | e1] eqn:H1;
    destruct (_sort_together argsort ichs2 chgs2 muls2) as [s2 | e2] eqn:H2.
  - rewrite (sort_together_sorted _ _ _ _ _ _ _ _ H1 H2).
    rewrite (sort_together_sorted _ _ _ _ _ _ _ _ H2 H1).
    destruct (sortable_gt (sortable_of s1) (sortable_of s2)) eqn:G12.
    + rewrite (sortable_gt_asym _ _ G12). reflexivity.
    + destruct (sortable_gt (sortable_of s2) (sortable_of s1)) eqn:G21;
        [reflexivity |].
      rewrite (sortable_of_inj _ _ (sortable_gt_total _ _ G12 G21)).
      reflexivity.
  - unfold sort_together. simpl. rewrite H1, H2. simpl.
    destruct s1 as [[a1 b1] d1]. reflexivity.
  - unfold sort_together. simpl. rewrite H1, H2. simpl.
    destruct s2 as [[a2 b2] d2]. reflexivity.
  - unfold sort_together. simpl. rewrite H1, H2. simpl.
    rewrite (_sort_together_raise _ _ _ _ H1).
    rewrite (_sort_together_raise _ _ _ _ H2). reflexivity.
Qed.

Lemma two_sided_rev {A B C : Type} (a : list A) (b : list B) (c : list C) :
  two_sided (rev a) (rev b) (rev c) = two_sided a b c.
Proof. unfold two_sided. rewrite !length_rev. reflexivity. Qed.

Lemma two_sided_shape {A B C : Type} (a : list A) (b : list B) (c : list C) :
  two_sided a b c = true ->
  exists a1 a2 b1 b2 c1 c2, a = [a1; a2] /\ b = [b1; b2] /\ c = [c1; c2].
Proof.
  unfold two_sided. intros H.
  apply andb_prop in H as [H Hc]. apply andb_prop in H as [Hab Hbc].
  apply Nat.eqb_eq in Hab, Hbc, Hc.
  destruct c as [| c1 [| c2 [| ? ?]]]; try discriminate Hc.
  destruct b as [| b1 [| b2 [| ? ?]]]; try discriminate Hbc.
  destruct a as [| a1 [| a2 [| ? ?]]]; try discriminate Hab.
  do 6 eexists. repeat split.
Qed.

Lemma sort_together_not_two_sided rxn_ichs rxn_chgs rxn_muls :
  two_sided rxn_ichs rxn_chgs rxn_muls = false ->
  sort_together argsort rxn_ichs rxn_chgs rxn_muls = Raise AssertionError.
Proof. intros H. unfold sort_together. rewrite H. reflexivity. Qed.

(** The same, for any reaction and its formal reverse. *)
Lemma sort_together_reverse (rxn : reaction) :
  sort_together_of argsort (reverse_reaction rxn) = sort_together_of argsort rxn.
Proof.
  destruct rxn as [[ri rc] rm]. unfold sort_together_of, reverse_reaction.
  destruct (two_sided ri rc rm) eqn:T.
  - apply two_sided_shape in T as (a1 & a2 & b1 & b2 & c1 & c2 & -> & -> & ->).
    simpl. apply sort_together_swap.
  - rewrite !sort_together_not_two_sided; auto.
    rewrite two_sided_rev. exact T.
Qed.

(** The canonical order is a fixed point of [sort_together]. *)
Lemma sort_together_fixed (x y : reaction) :
  sort_together_of argsort x = Ok y -> sort_together_of argsort y = Ok y.
Proof.
  destruct x as [[ri rc] rm]. unfold sort_together_of. intros H.
  destruct (two_sided ri rc rm) eqn:T;
    [| rewrite sort_together_not_two_sided in H by exact T; discriminate H].
  apply two_sided_shape in T as (a1 & a2 & b1 & b2 & c1 & c2 & -> & -> & ->).
  destruct (_sort_together argsort a1 b1 c1) as [s1 | e1] eqn:H1;
    [| unfold sort_together in H; simpl in H; rewrite H1 in H; discriminate H].
  destruct (_sort_together argsort a2 b2 c2) as [s2 | e2] eqn:H2;
    [| unfold sort_together in H; simpl in H; rewrite H1, H2 in H;
       destruct s1 as [[? ?] ?]; discriminate H].
  rewrite (sort_together_sorted _ _ _ _ _ _ _ _ H1 H2) in H.
  injection H as <-.
  destruct s1 as [[i1 k1] m1], s2 as [[i2 k2] m2].
  destruct (_sort_together_sorted _ _ _ _ _ _ H1) as [F1 _].
  destruct (_sort_together_sorted _ _ _ _ _ _ H2) as [F2 _].
  destruct (sortable_gt (sortable_of (i1, k1, m1)) (sortable_of (i2, k2, m2)))
    eqn:G; simpl.
  - rewrite (sort_together_sorted _ _ _ _ _ _ _ _ F2 F1).
    rewrite (sortable_gt_asym _ _ G). reflexivity.
  - rewrite (sort_together_sorted _ _ _ _ _ _ _ _ F1 F2).
    rewrite G. reflexivity.
Qed.

(** C1: a two-sided reaction and its structurally reversed counterpart
    (the two sides exchanged) have the same canonical order under
    [sort_together], whether it returns or raises; consequently
    [reaction_leaf] applied to the canonical form of the reaction and
    to the canonical form of its reverse gives the same path, for every
    transition-state multiplicity and every setting of safe mode. *)
Theorem reaction_leaf_orientation_independent (s1 s2 : side) :
  sort_together_of argsort (reaction_of s2 s1)
  = sort_together_of argsort (reaction_of s1 s2)
  /\ forall safemode_is_on sorted_ is_standard_form is_complete standard_form
       join inchi_key formula_layer first_hash second_hash_with_extension
       _is_valid_inchi_multiplicity ts_mul,
      (y <- sort_together_of argsort (reaction_of s2 s1) ;;
       reaction_leaf_of safemode_is_on argsort sorted_ is_standard_form
         is_complete standard_form join inchi_key formula_layer first_hash
         second_hash_with_extension _is_valid_inchi_multiplicity y ts_mul)
      = (y <- sort_together_of argsort (reaction_of s1 s2) ;;
         reaction_leaf_of safemode_is_on argsort sorted_ is_standard_form
           is_complete standard_form join inchi_key formula_layer first_hash
           second_hash_with_extension _is_valid_inchi_multiplicity y ts_mul).
Proof.
  assert (E : sort_together_of argsort (reaction_of s2 s1)
              = sort_together_of argsort (reaction_of s1 s2)).
  { destruct s1 as [[i1 c1] m1], s2 as [[i2 c2] m2]. simpl.
    apply sort_together_swap. }
  split; [exact E |]. intros. rewrite E. reflexivity.
Qed.

(** C2: [sort_together] is idempotent.  On a two-sided input whose
    charges and multiplicities match the identifiers in number on each
    side it returns, and applied to what it returned it returns the
    same again. *)
Theorem sort_together_idempotent ichs1 ichs2 chgs1 chgs2 muls1 muls2 :
  List.length chgs1 = List.length ichs1 ->
  List.length muls1 = List.length ichs1 ->
  List.length chgs2 = List.length ichs2 ->
  List.length muls2 = List.length ichs2 ->
  exists y,
    sort_together argsort [ichs1; ichs2] [chgs1; chgs2] [muls1; muls2] = Ok y
    /\ sort_together_of argsort y = Ok y.
Proof.
  intros Lc1 Lm1 Lc2 Lm2.
  destruct (_sort_together_total ichs1 chgs1 muls1 Lc1 Lm1) as [s1 H1].
  destruct (_sort_together_total ichs2 chgs2 muls2 Lc2 Lm2) as [s2 H2].
  pose proof (sort_together_sorted _ _ _ _ _ _ _ _ H1 H2) as H.
  eexists. split; [exact H |].
  apply (sort_together_fixed ([ichs1; ichs2], [chgs1; chgs2], [muls1; muls2])).
  exact H.
Qed.

(** C3: [reaction_is_reversed] and [sort_together] agree.  When
    [reaction_is_reversed] returns on a two-sided input, both sides
    sort, and [sort_together] returns the sorted sides exchanged if the
    answer was true and in their original order if it was false. *)
Theorem sort_together_agrees_with_reaction_is_reversed
    ichs1 ichs2 chgs1 chgs2 muls1 muls2 (reversed : bool) :
  reaction_is_reversed argsort [ichs1; ichs2] [chgs1; chgs2] [muls1; muls2]
  = Ok reversed ->
  exists s1 s2,
    _sort_together argsort ichs1 chgs1 muls1 = Ok s1
    /\ _sort_together argsort ichs2 chgs2 muls2 = Ok s2
    /\ sort_together argsort [ichs1; ichs2] [chgs1; chgs2] [muls1; muls2]
       = Ok (if reversed then reaction_of s2 s1 else reaction_of s1 s2).
Proof.
  intros H. unfold sort_together. rewrite H.
  unfold reaction_is_reversed in H. simpl in H.
  destruct (_sort_together argsort ichs1 chgs1 muls1) as [[[a1 b1] d1] | e1];
    [| discriminate H].
  destruct (_sort_together argsort ichs2 chgs2 muls2) as [[[a2 b2] d2] | e2];
    [| discriminate H].
  exists (a1, b1, d1), (a2, b2, d2). simpl.
  repeat split. destruct reversed; reflexivity.
Qed.

End Canonicalization.

(** ** The reference sort order meets the contract *)

Section StableArgsortFacts.

Variable A : Type.
Variable leb : A -> A -> bool.
Hypothesis leb_total : forall x y, leb x y = true \/ leb y x = true.

Lemma insert_keyed_Forall (Q : nat * A -> Prop) p l :
  Q p -> Forall Q l -> Forall Q (insert_keyed leb p l).
Proof.
  intros Hp. induction 1 as [| q t Hq Ht IH]; simpl.
  - constructor; auto.
  - destruct (leb (snd p) (snd q)); repeat constructor; auto.
Qed.

Lemma sort_keyed_Forall (Q : nat * A -> Prop) l :
  Forall Q l -> Forall Q (sort_keyed leb l).
Proof.
  induction 1 as [| q t Hq Ht IH]; simpl.
  - constructor.
  - apply insert_keyed_Forall; assumption.
Qed.

Lemma insert_keyed_sorted p l :
  Sorted (le_keyed leb) l -> Sorted (le_keyed leb) (insert_keyed leb p l).
Proof.
  induction 1 as [| q t Ht IH Hq]; simpl.
  - repeat constructor.
  - destruct (leb (snd p) (snd q)) eqn:E.
    + repeat constructor; auto.
    + constructor; [exact IH |].
      destruct t as [| r t']; simpl.
      * constructor. unfold le_keyed.
        destruct (leb_total (snd p) (snd q)); congruence.
      * destruct (leb (snd p) (snd r)); constructor.
        -- unfold le_keyed. destruct (leb_total (snd p) (snd q)); congruence.
        -- inversion Hq; assumption.
Qed.

Lemma sort_keyed_sorted l : Sorted (le_keyed leb) (sort_keyed leb l).
Proof.
  induction l as [| p t IH]; simpl.
  - constructor.
  - apply insert_keyed_sorted. exact IH.
Qed.

(** Sorting is the identity on a list that is in order already:
    equal keys keep their places. *)
Lemma sort_keyed_id l : Sorted (le_keyed leb) l -> sort_keyed leb l = l.
Proof.
  induction 1 as [| p t Ht IH Hp]; simpl.
  - reflexivity.
  - rewrite IH. destruct Hp as [| q t' Hpq]; simpl.
    + reflexivity.
    + unfold le_keyed in Hpq. rewrite Hpq. reflexivity.
Qed.

Lemma enumerate_from_fst start (l : list A) :
  map fst (enumerate_from start l) = seq start (List.length l).
Proof.
  unfold enumerate_from. revert start.
  induction l as [| x t IH]; intros start; simpl; [reflexivity |].
  f_equal. apply IH.
Qed.

Lemma enumerate_from_snd start (l : list A) :
  map snd (enumerate_from start l) = l.
Proof.
  unfold enumerate_from. revert start.
  induction l as [| x t IH]; intros start; simpl; [reflexivity |].
  f_equal. apply IH.
Qed.

Lemma enumerate_from_lookup (pre l : list A) :
  Forall (fun p => nth_error (pre ++ l)%list (fst p) = Some (snd p))
    (enumerate_from (List.length pre) l).
Proof.
  unfold enumerate_from. revert pre.
  induction l as [| x t IH]; intros pre; simpl; constructor.
  - simpl. rewrite nth_error_app2 by lia. rewrite Nat.sub_diag. reflexivity.
  - specialize (IH (pre ++ [x])%list).
    rewrite <- app_assoc, length_app in IH. simpl in IH.
    rewrite Nat.add_1_r in IH. exact IH.
Qed.

Lemma take_by_index_keyed (l : list A) (ps : list (nat * A)) :
  Forall (fun p => nth_error l (fst p) = Some (snd p)) ps ->
  take_by_index l (map fst ps) = Ok (map snd ps).
Proof.
  induction 1 as [| p t Hp Ht IH]; simpl.
  - reflexivity.
  - rewrite Hp, IH. reflexivity.
Qed.

Lemma Sorted_map_snd (ps : list (nat * A)) :
  Sorted (le_keyed leb) ps ->
  forall start,
    Sorted (le_keyed leb) (enumerate_from start (map snd ps)).
Proof.
  unfold enumerate_from.
  induction 1 as [| p t Ht IH Hp]; intros start; simpl.
  - constructor.
  - constructor; [apply IH |].
    destruct Hp as [| q t' Hpq]; simpl; constructor. exact Hpq.
Qed.

Lemma stable_argsort_range (l : list A) :
  Forall (fun i => (i < List.length l)%nat) (stable_argsort leb l).
Proof.
  unfold stable_argsort. apply Forall_map.
  apply sort_keyed_Forall. apply Forall_forall. intros [i x] Hin.
  unfold enumerate_from in Hin. apply in_combine_l in Hin.
  apply in_seq in Hin. simpl. lia.
Qed.

Lemma stable_argsort_sorted (l l' : list A) :
  take_by_index l (stable_argsort leb l) = Ok l' ->
  stable_argsort leb l' = seq 0 (List.length l').
Proof.
  unfold stable_argsort. intros H.
  rewrite take_by_index_keyed in H.
  - injection H as <-.
    rewrite sort_keyed_id.
    + apply enumerate_from_fst.
    + apply Sorted_map_snd. apply sort_keyed_sorted.
  - apply sort_keyed_Forall. exact (enumerate_from_lookup [] l).
Qed.

End StableArgsortFacts.

Lemma lex_argsort_range (ichs : list string) :
  Forall (fun i => (i < List.length ichs)%nat) (lex_argsort ichs).
Proof. apply stable_argsort_range. Qed.

Lemma lex_argsort_sorted (ichs ichs' : list string) :
  take_by_index ichs (lex_argsort ichs) = Ok ichs' ->
  lex_argsort ichs' = seq 0 (List.length ichs').
Proof. apply stable_argsort_sorted. apply String.leb_total. Qed.

(** ** Examples of the formats *)

Example format_2f_examples :
  scan_leaf [float_1_005; float_2_0] = "1.00_2.00"
  /\ format_2f (S754_finite false 4503599627370496 (-55)) = "0.12"
  /\ format_2f (S754_finite false 6755399441055744 (-54)) = "0.38"
  /\ format_2f (S754_finite true 4611686018427388 (-62)) = "-0.00"
  /\ format_2f (S754_finite false 8483885939586761 (-36)) = "123456.79"
  /\ format_2f (S754_finite false 4768371582031250 21)
     = "10000000000000000000000.00".
Proof. vm_compute. repeat split. Qed.

Example format_d_examples :
  format_0wd 2 7 = "07" /\ format_0wd 2 (-1) = "-1" /\ format_0wd 3 (-5) = "-05"
  /\ format_fill0_right 2 7 = "07" /\ format_fill0_right 3 (-5) = "0-5"
  /\ format_fill0_right 2 123 = "123" /\ str_int (-40) = "-40"
  /\ int_of_str "07" = Ok 7 /\ int_of_str "x7" = Raise ValueError.
Proof. vm_compute. repeat split. Qed.

Example path_join_examples :
  path_join "CH4" ["ABC"; "0"; "1"; "XYZ-N"] = "CH4/ABC/0/1/XYZ-N"
  /\ path_join "a" ["/b"; "c"] = "/b/c"
  /\ path_join "a/" ["b"] = "a/b".
Proof. vm_compute. repeat split. Qed.

Example canonical_order_example :
  reaction_is_reversed lex_argsort
    [fst (fst methane_hydroxyl); fst (fst methyl_water)] [[0; 0]; [0; 0]]
    [[1; 2]; [2; 1]] = Ok true
  /\ sort_together_of lex_argsort (reaction_of methane_hydroxyl methyl_water)
     = Ok (reaction_of methyl_water methane_hydroxyl).
Proof. vm_compute. split; reflexivity. Qed.

(** ** The canonical order on a concrete reaction *)

Lemma reaction_leaf_orientation_independent_witness :
  (forall ichs ichs',
      take_by_index ichs (lex_argsort ichs) = Ok ichs' ->
      lex_argsort ichs' = seq 0 (List.length ichs'))
  /\ sort_together_of lex_argsort (reaction_of methyl_water methane_hydroxyl)
     = sort_together_of lex_argsort (reaction_of methane_hydroxyl methyl_water).
Proof.
  split.
  - exact lex_argsort_sorted.
  - exact (proj1 (reaction_leaf_orientation_independent lex_argsort
                    lex_argsort_sorted methane_hydroxyl methyl_water)).
Defined.

Lemma sort_together_idempotent_witness :
  exists y,
    sort_together lex_argsort
      [["InChI=1S/HO/h1H"; "InChI=1S/CH4/h1H4"]; ["InChI=1S/H2O/h1H2"]]
      [[0; 0]; [0]] [[2; 1]; [1]] = Ok y
    /\ sort_together_of lex_argsort y = Ok y.
Proof.
  apply (sort_together_idempotent lex_argsort lex_argsort_range
           lex_argsort_sorted); reflexivity.
Defined.

Lemma sort_together_agrees_with_reaction_is_reversed_witness :
  exists s1 s2,
    _sort_together lex_argsort
      ["InChI=1S/HO/h1H"; "InChI=1S/CH4/h1H4"] [0; 0] [2; 1] = Ok s1
    /\ _sort_together lex_argsort ["InChI=1S/H2O/h1H2"] [0] [1] = Ok s2
    /\ sort_together lex_argsort
         [["InChI=1S/HO/h1H"; "InChI=1S/CH4/h1H4"]; ["InChI=1S/H2O/h1H2"]]
         [[0; 0]; [0]] [[2; 1]; [1]]
       = Ok (if true then reaction_of s2 s1 else reaction_of s1 s2).
Proof.
  apply (sort_together_agrees_with_reaction_is_reversed lex_argsort).
  vm_compute. reflexivity.
Defined.

(** The leaf of the same reaction named from either orientation, with
    safe mode on, the identifier layers cut down to fixed texts and the
    validity of the multiplicities decided by the parity rule. *)
Example reaction_leaf_example :
  let leaf_of rxn :=
    y <- sort_together_of lex_argsort rxn ;;
    reaction_leaf_of true lex_argsort
      (fun ichs => match take_by_index ichs (lex_argsort ichs) with
                   | Ok ichs' => ichs'
                   | Raise _ => ichs
                   end)
      (fun _ => true) (fun _ => true) (fun ich => ich) (str_join ".")
      (fun ich => ich) (fun _ => "F") (fun _ => "K") (fun _ => "X-N")
      (parity_valid electron_table) y 2 in
  leaf_of (reaction_of methane_hydroxyl methyl_water)
  = Ok "F/K/0_0/2_1/X-N/F/K/0_0/1_2/X-N/2"
  /\ leaf_of (reaction_of methyl_water methane_hydroxyl)
     = Ok "F/K/0_0/2_1/X-N/F/K/0_0/1_2/X-N/2".
Proof. vm_compute. split; reflexivity. Qed.

(** ** Numeric leaves *)

Lemma numeric_leaf_in_range (k : nat) :
  (k < 100)%nat ->
  transition_state_leaf (PyInt (Z.of_nat k)) = Ok (two_digits (Z.of_nat k))
  /\ int_of_str (two_digits (Z.of_nat k)) = Ok (Z.of_nat k).
Proof.
  intros Hk.
  do 100 (destruct k as [| k]; [vm_compute; split; reflexivity |]).
  lia.
Qed.

Lemma numeric_leaf_out_of_range (v : pyval) :
  is_integral v = false \/ int_val v < 0 \/ 99 < int_val v ->
  transition_state_leaf v = Raise AssertionError.
Proof.
  unfold transition_state_leaf, py_assert. intros [H | H].
  - rewrite H. reflexivity.
  - replace ((0 <=? int_val v) && (int_val v <=? 99)) with false.
    + rewrite andb_false_r. reflexivity.
    + symmetry. apply andb_false_iff. rewrite Z.leb_gt, Z.leb_gt. lia.
Qed.

(** C6: for every integer [n] with [0 <= n <= 99] the three numeric
    leaves return the two-digit zero-padded decimal numeral of [n],
    which [int] parses back to [n]; for 100, for -1 (indeed for every
    integer outside the range) and for every argument that is not an
    integer each of them fails with an assertion error. *)
Theorem numeric_leaf_round_trip :
  (forall n : Z, 0 <= n <= 99 ->
     transition_state_leaf (PyInt n) = Ok (two_digits n)
     /\ zmatrix_leaf (PyInt n) = Ok (two_digits n)
     /\ vrctst_leaf (PyInt n) = Ok (two_digits n)
     /\ String.length (two_digits n) = 2%nat
     /\ int_of_str (two_digits n) = Ok n)
  /\ (forall v : pyval,
        v = PyInt 100 \/ v = PyInt (-1) \/ is_integral v = false
        \/ int_val v < 0 \/ 99 < int_val v ->
        transition_state_leaf v = Raise AssertionError
        /\ zmatrix_leaf v = Raise AssertionError
        /\ vrctst_leaf v = Raise AssertionError).
Proof.
  split.
  - intros n Hn.
    destruct (numeric_leaf_in_range (Z.to_nat n)) as [H1 H2]; [lia |].
    rewrite Z2Nat.id in H1, H2 by lia.
    change (zmatrix_leaf (PyInt n)) with (transition_state_leaf (PyInt n)).
    change (vrctst_leaf (PyInt n)) with (transition_state_leaf (PyInt n)).
    repeat split; assumption.
  - intros v H.
    change (zmatrix_leaf v) with (transition_state_leaf v).
    change (vrctst_leaf v) with (transition_state_leaf v).
    assert (E : transition_state_leaf v = Raise AssertionError).
    { destruct H as [-> | [-> | H]]; try reflexivity.
      apply numeric_leaf_out_of_range. exact H. }
    repeat split; exact E.
Qed.

Lemma numeric_leaf_round_trip_witness :
  transition_state_leaf (PyInt 7) = Ok "07"
  /\ zmatrix_leaf (PyInt 7) = Ok "07"
  /\ vrctst_leaf (PyInt 7) = Ok "07"
  /\ String.length "07" = 2%nat
  /\ int_of_str "07" = Ok 7.
Proof.
  apply (proj1 numeric_leaf_round_trip 7). lia.
Defined.

(** ** Sub-run leaves *)

Lemma subrun_leaf_below_26 (macro micro : Z) :
  macro < 26 ->
  subrun_leaf (PyInt macro) (PyInt micro)
  = (c <- str_getitem ascii_uppercase macro ;;
     Ok (String c (format_fill0_right 2 micro))).
Proof.
  intros H. unfold subrun_leaf, py_assert. simpl.
  apply Z.ltb_lt in H. rewrite H.
  destruct (str_getitem ascii_uppercase macro); reflexivity.
Qed.

Lemma ascii_uppercase_getitem (k : nat) :
  (k < 26)%nat ->
  str_getitem ascii_uppercase (Z.of_nat k) = Ok (letter_at (Z.of_nat k))
  /\ str_getitem ascii_uppercase (Z.of_nat k - 26) = Ok (letter_at (Z.of_nat k)).
Proof.
  intros Hk.
  do 26 (destruct k as [| k]; [vm_compute; split; reflexivity |]).
  lia.
Qed.

Lemma format_fill0_right_two_digits (k : nat) :
  (k < 100)%nat -> format_fill0_right 2 (Z.of_nat k) = two_digits (Z.of_nat k).
Proof.
  intros Hk.
  do 100 (destruct k as [| k]; [vm_compute; reflexivity |]).
  lia.
Qed.

(** C7: for integers with [0 <= macro_idx < 26], [subrun_leaf] returns
    the uppercase letter at position [macro_idx] of the alphabet
    followed by [micro_idx] zero-filled to two characters — its two
    decimal digits when [0 <= micro_idx <= 99], so that
    [subrun_leaf(0, 3)] is ['A03'] — and it fails with an assertion
    error whenever [macro_idx >= 26], as [subrun_leaf(26, 0)] does. *)
Theorem subrun_leaf_letter_and_index :
  (forall macro micro : Z, 0 <= macro < 26 ->
     subrun_leaf (PyInt macro) (PyInt micro)
     = Ok (String (letter_at macro) (format_fill0_right 2 micro))
     /\ String.get (Z.to_nat macro) ascii_uppercase = Some (letter_at macro)
     /\ (0 <= micro <= 99 -> format_fill0_right 2 micro = two_digits micro))
  /\ subrun_leaf (PyInt 0) (PyInt 3) = Ok "A03"
  /\ (forall (macro : Z) (micro : pyval), 26 <= macro ->
        subrun_leaf (PyInt macro) micro = Raise AssertionError)
  /\ subrun_leaf (PyInt 26) (PyInt 0) = Raise AssertionError.
Proof.
  repeat split; try reflexivity.
  - rewrite subrun_leaf_below_26 by lia.
    destruct (ascii_uppercase_getitem (Z.to_nat macro)) as [E _]; [lia |].
    rewrite Z2Nat.id in E by lia. rewrite E. reflexivity.
  - destruct (ascii_uppercase_getitem (Z.to_nat macro)) as [E _]; [lia |].
    rewrite Z2Nat.id in E by lia.
    unfold str_getitem in E.
    replace (macro <? 0) with false in E by (symmetry; apply Z.ltb_ge; lia).
    destruct ((0 <=? macro) && (macro <? _)); [| discriminate E].
    destruct (String.get (Z.to_nat macro) ascii_uppercase);
      [congruence | discriminate E].
  - intros Hm. rewrite <- (Z2Nat.id micro) by lia.
    apply format_fill0_right_two_digits. lia.
  - intros macro micro Hm. unfold subrun_leaf, py_assert. simpl.
    replace (macro <? 26) with false by (symmetry; apply Z.ltb_ge; lia).
    destruct (is_integral micro); reflexivity.
Qed.

Lemma subrun_leaf_letter_and_index_witness :
  subrun_leaf (PyInt 2) (PyInt 15) = Ok "C15".
Proof.
  assert (R : 0 <= 2 < 26) by lia.
  exact (proj1 (proj1 subrun_leaf_letter_and_index 2 15 R)).
Defined.

(** C8: [subrun_leaf] puts no lower bound on [macro_idx]: for every
    integer [macro_idx] with [-26 <= macro_idx <= -1] and every integer
    [micro_idx] it does not fail but returns the letter counted from the
    end of the alphabet, so that [subrun_leaf(-1, 0)] is ['Z00']. *)
Theorem subrun_leaf_negative_macro_wraps :
  (forall macro micro : Z, -26 <= macro <= -1 ->
     subrun_leaf (PyInt macro) (PyInt micro)
     = Ok (String (letter_at (26 + macro)) (format_fill0_right 2 micro)))
  /\ subrun_leaf (PyInt (-1)) (PyInt 0) = Ok "Z00".
Proof.
  split; [| reflexivity].
  intros macro micro H. rewrite subrun_leaf_below_26 by lia.
  destruct (ascii_uppercase_getitem (Z.to_nat (26 + macro))) as [_ E]; [lia |].
  rewrite Z2Nat.id in E by lia.
  replace (26 + macro - 26) with macro in E by lia.
  rewrite E. reflexivity.
Qed.

Lemma subrun_leaf_negative_macro_wraps_witness :
  subrun_leaf (PyInt (-24)) (PyInt 5) = Ok "C05".
Proof.
  assert (R : -26 <= -24 <= -1) by lia.
  exact (proj1 subrun_leaf_negative_macro_wraps (-24) 5 R).
Defined.

(** ** Build numbers *)

(** C10: for every integer [n], negative ones included,
    [get_next_build_number(n)] is the integer in the range from 0 to 9
    that differs from [n] by a multiple of ten, the remainder of [n]
    modulo 10 that is never negative; [get_next_build_number(-1)] is 9.
    The function is total on the integers. *)
Theorem get_next_build_number_range (n : Z) :
  0 <= get_next_build_number n <= 9
  /\ (exists q : Z, n = 10 * q + get_next_build_number n)
  /\ get_next_build_number (-1) = 9.
Proof.
  unfold get_next_build_number. repeat split.
  - apply Z.mod_pos_bound. lia.
  - pose proof (Z.mod_pos_bound n 10). lia.
  - exists (n / 10). apply Z.div_mod. lia.
Qed.

(** ** Identifier validation *)

Lemma str_getitem_head (c : ascii) (rest : string) :
  str_getitem (String c rest) 0 = Ok c.
Proof.
  unfold str_getitem. simpl String.length.
  replace (0 <? 0) with false by reflexivity.
  replace ((0 <=? 0) && (0 <? Z.of_nat (S (String.length rest)))) with true.
  - reflexivity.
  - symmetry. apply andb_true_iff. split; [reflexivity |].
    apply Z.ltb_lt. lia.
Qed.

(** C9: the identifier validators are the identity on valid input: a
    string whose first character is the tag (['r'] for
    [conformer_branch], ['c'] for [conformer_leaf], ['t'] for
    [tau_leaf]) and whose remainder satisfies the
    random-string-identifier predicate is returned unchanged. *)
Theorem validators_return_their_argument
    (_is_random_string_identifier : string -> bool) (rest : string) :
  _is_random_string_identifier rest = true ->
  conformer_branch _is_random_string_identifier (String "r" rest)
  = Ok (String "r" rest)
  /\ conformer_leaf _is_random_string_identifier (String "c" rest)
     = Ok (String "c" rest)
  /\ tau_leaf _is_random_string_identifier (String "t" rest)
     = Ok (String "t" rest).
Proof.
  intros H. unfold conformer_branch, conformer_leaf, tau_leaf.
  rewrite !str_getitem_head. simpl. rewrite H. simpl. auto.
Qed.

Lemma validators_return_their_argument_witness :
  conformer_branch alnum_identifier "rAB12cd" = Ok "rAB12cd"
  /\ conformer_leaf alnum_identifier "cAB12cd" = Ok "cAB12cd"
  /\ tau_leaf alnum_identifier "tAB12cd" = Ok "tAB12cd".
Proof.
  apply (validators_return_their_argument alnum_identifier "AB12cd").
  reflexivity.
Defined.

Example validators_reject :
  conformer_branch alnum_identifier "xAB12cd" = Raise AssertionError
  /\ conformer_branch alnum_identifier "" = Raise IndexError
  /\ tau_leaf alnum_identifier "t-" = Raise AssertionError.
Proof. vm_compute. repeat split. Qed.

(** ** Checks of the species leaf *)

Section SpeciesChecks.

Variable is_standard_form : string -> bool.
Variable is_complete : string -> bool.
Variable inchi_key : string -> string.
Variable formula_layer : string -> string.
Variable first_hash : string -> string.
Variable second_hash_with_extension : string -> string.
Variable _is_valid_inchi_multiplicity : string -> Z -> option Z -> bool.

(** C5, as the code has it: the standard-form and completeness checks
    of the identifier run only in safe mode, while the integer checks
    and the validity check of the charge/multiplicity combination run
    in either mode.  With safe mode off, [species_leaf] returns the path
    exactly when charge and multiplicity are integers and the
    combination is valid, and fails with an assertion error otherwise,
    whatever the form of the identifier; with safe mode on it asks in
    addition for a standard, complete identifier. *)
Theorem species_leaf_checks (ich : string) (chg mul : pyval) :
  species_leaf false is_standard_form is_complete inchi_key formula_layer
    first_hash second_hash_with_extension _is_valid_inchi_multiplicity
    ich chg mul
  = (if is_integral chg && is_integral mul
        && _is_valid_inchi_multiplicity ich (int_val mul) (Some (int_val chg))
     then Ok (path_join (formula_layer ich)
                [first_hash (inchi_key ich); str_integral chg;
                 str_integral mul;
                 second_hash_with_extension (inchi_key ich)])
     else Raise AssertionError)
  /\ species_leaf true is_standard_form is_complete inchi_key formula_layer
       first_hash second_hash_with_extension _is_valid_inchi_multiplicity
       ich chg mul
     = (if is_standard_form ich && is_complete ich
           && is_integral chg && is_integral mul
           && _is_valid_inchi_multiplicity ich (int_val mul)
                (Some (int_val chg))
        then Ok (path_join (formula_layer ich)
                   [first_hash (inchi_key ich); str_integral chg;
                    str_integral mul;
                    second_hash_with_extension (inchi_key ich)])
        else Raise AssertionError).
Proof.
  unfold species_leaf, py_assert. simpl.
  destruct (is_standard_form ich), (is_complete ich), (is_integral chg),
    (is_integral mul),
    (_is_valid_inchi_multiplicity ich (int_val mul) (Some (int_val chg)));
    split; reflexivity.
Qed.

End SpeciesChecks.

(** With safe mode off, methane as a doublet is rejected although no
    check of the identifier's form is made. *)
Lemma species_leaf_invalid_without_safemode :
  parity_valid electron_table "InChI=1S/CH4/h1H4" 2 (Some 0) = false
  /\ species_leaf false (fun _ => false) (fun _ => false) (fun ich => ich)
       (fun _ => "CH4") (fun _ => "VNWKTOKETHGBQD") (fun _ => "UHFFFAOYSA-N")
       (parity_valid electron_table)
       "InChI=1S/CH4/h1H4" (PyInt 0) (PyInt 2)
     = Raise AssertionError.
Proof. vm_compute. split; reflexivity. Qed.

Example species_leaf_singlet_methane :
  species_leaf false (fun _ => false) (fun _ => false) (fun ich => ich)
    (fun _ => "CH4") (fun _ => "VNWKTOKETHGBQD") (fun _ => "UHFFFAOYSA-N")
    (parity_valid electron_table)
    "InChI=1S/CH4/h1H4" (PyInt 0) (PyInt 1)
  = Ok "CH4/VNWKTOKETHGBQD/0/1/UHFFFAOYSA-N".
Proof. vm_compute. reflexivity. Qed.

(** ** Characters of the names *)

Lemma all_chars_app (p : ascii -> bool) (s t : string) :
  all_chars p (s ++ t) = all_chars p s && all_chars p t.
Proof.
  unfold all_chars. induction s as [| c s IH]; simpl.
  - reflexivity.
  - rewrite IH. apply andb_assoc.
Qed.

Lemma all_chars_weaken (p q : ascii -> bool) (s : string) :
  (forall c, p c = true -> q c = true) ->
  all_chars p s = true -> all_chars q s = true.
Proof.
  intros Hpq. unfold all_chars. rewrite !forallb_forall. auto.
Qed.

Lemma all_chars_replicate (p : ascii -> bool) (n : nat) (c : ascii) :
  p c = true -> all_chars p (replicate n c) = true.
Proof.
  intros Hc. unfold all_chars. induction n as [| n IH]; simpl.
  - reflexivity.
  - rewrite Hc. exact IH.
Qed.

Lemma all_chars_pad_left (p : ascii -> bool) fill width s :
  p fill = true -> all_chars p s = true ->
  all_chars p (pad_left fill width s) = true.
Proof.
  intros Hf Hs. unfold pad_left.
  rewrite all_chars_app, all_chars_replicate, Hs; auto.
Qed.


Lemma uint_chars_alnum (d : Decimal.uint) :
  all_chars is_alnum (NilEmpty.string_of_uint d) = true.
Proof. induction d; simpl; auto. Qed.

(** The decimal numeral of a natural number consists of digits. *)
Lemma digits_alnum (n : N) : all_chars is_alnum (digits n) = true.
Proof.
  unfold digits, NilZero.string_of_uint.
  destruct (N.to_uint n) eqn:E; try reflexivity;
    rewrite <- E; apply uint_chars_alnum.
Qed.






Lemma sign_str_safe (s : bool) : all_chars fs_safe (sign_str s) = true.
Proof. destruct s; reflexivity. Qed.


(** A finite float is printed with a decimal point. *)
Lemma format_2f_has_point (s : bool) (m : positive) (e : Z) :
  all_chars fs_safe (format_2f (S754_finite s m e)) = false.
Proof.
  simpl. rewrite !all_chars_app.
  change (all_chars fs_safe ".") with false.
  rewrite andb_false_r. simpl. apply andb_false_r.
Qed.

(** The leaf of a scan over the single coordinate value 2.0 is
    ["2.00"], and the decimal point is none of the alphanumerics,
    underscore, hyphen and ['@']. *)
Lemma scan_leaf_has_decimal_point :
  scan_leaf [float_2_0] = "2.00"
  /\ cscan_leaf [float_2_0] = "2.00"
  /\ all_chars fs_safe (scan_leaf [float_2_0]) = false
  /\ all_chars fs_safe (cscan_leaf [float_2_0]) = false.
Proof. vm_compute. repeat split. Qed.


(** ** Further properties of the canonical order *)

Lemma reaction_is_reversed_ok argsort ichs1 ichs2 chgs1 chgs2 muls1 muls2 b :
  reaction_is_reversed argsort [ichs1; ichs2] [chgs1; chgs2] [muls1; muls2]
  = Ok b ->
  exists s1 s2,
    _sort_together argsort ichs1 chgs1 muls1 = Ok s1
    /\ _sort_together argsort ichs2 chgs2 muls2 = Ok s2.
Proof.
  unfold reaction_is_reversed. simpl. intros H.
  destruct (_sort_together argsort ichs1 chgs1 muls1) as [s1 | e1];
    [| discriminate H].
  destruct (_sort_together argsort ichs2 chgs2 muls2) as [s2 | e2];
    [| destruct s1 as [[? ?] ?]; discriminate H].
  exists s1, s2. split; reflexivity.
Qed.

Lemma reaction_is_reversed_not_two_sided argsort rxn_ichs rxn_chgs rxn_muls :
  two_sided rxn_ichs rxn_chgs rxn_muls = false ->
  reaction_is_reversed argsort rxn_ichs rxn_chgs rxn_muls
  = Raise AssertionError.
Proof. intros H. unfold reaction_is_reversed. rewrite H. reflexivity. Qed.

Section CanonicalForm.

Variable argsort : list string -> list nat.

Hypothesis argsort_sorted :
  forall ichs ichs',
    take_by_index ichs (argsort ichs) = Ok ichs' ->
    argsort ichs' = seq 0 (List.length ichs').

(** What [sort_together] returns is never reversed: asked about its own
    result, [reaction_is_reversed] answers false. *)
Theorem sort_together_result_not_reversed
    (rxn : reaction) rxn_ichs rxn_chgs rxn_muls :
  sort_together_of argsort rxn = Ok (rxn_ichs, rxn_chgs, rxn_muls) ->
  reaction_is_reversed argsort rxn_ichs rxn_chgs rxn_muls = Ok false.
Proof.
  destruct rxn as [[ri rc] rm]. unfold sort_together_of. intros H.
  destruct (two_sided ri rc rm) eqn:T;
    [| rewrite sort_together_not_two_sided in H by exact T; discriminate H].
  apply two_sided_shape in T as (a1 & a2 & b1 & b2 & c1 & c2 & -> & -> & ->).
  destruct (_sort_together argsort a1 b1 c1) as [s1 | e1] eqn:H1;
    [| unfold sort_together in H; simpl in H; rewrite H1 in H; discriminate H].
  destruct (_sort_together argsort a2 b2 c2) as [s2 | e2] eqn:H2;
    [| unfold sort_together in H; simpl in H; rewrite H1, H2 in H;
       destruct s1 as [[? ?] ?]; discriminate H].
  rewrite (sort_together_sorted argsort argsort_sorted _ _ _ _ _ _ _ _ H1 H2)
    in H.
  destruct s1 as [[i1 k1] m1], s2 as [[i2 k2] m2].
  destruct (_sort_together_sorted argsort argsort_sorted _ _ _ _ _ _ H1)
    as [F1 _].
  destruct (_sort_together_sorted argsort argsort_sorted _ _ _ _ _ _ H2)
    as [F2 _].
  destruct (sortable_gt (sortable_of (i1, k1, m1)) (sortable_of (i2, k2, m2)))
    eqn:G; simpl in H; injection H as <- <- <-.
  - rewrite (reaction_is_reversed_sorted argsort argsort_sorted
               _ _ _ _ _ _ _ _ F2 F1).
    rewrite (sortable_gt_asym _ _ G). reflexivity.
  - rewrite (reaction_is_reversed_sorted argsort argsort_sorted
               _ _ _ _ _ _ _ _ F1 F2).
    rewrite G. reflexivity.
Qed.

(** Of a reaction and its reverse at most one is reversed, and where
    neither is, the two sides sort to the same side. *)
Theorem reaction_is_reversed_asymmetric
    ichs1 ichs2 chgs1 chgs2 muls1 muls2 (b : bool) :
  reaction_is_reversed argsort [ichs1; ichs2] [chgs1; chgs2] [muls1; muls2]
  = Ok b ->
  exists b',
    reaction_is_reversed argsort [ichs2; ichs1] [chgs2; chgs1] [muls2; muls1]
    = Ok b'
    /\ b && b' = false
    /\ (b = false -> b' = false ->
        _sort_together argsort ichs1 chgs1 muls1
        = _sort_together argsort ichs2 chgs2 muls2).
Proof.
  intros H.
  destruct (reaction_is_reversed_ok _ _ _ _ _ _ _ _ H) as (s1 & s2 & H1 & H2).
  rewrite (reaction_is_reversed_sorted argsort argsort_sorted
             _ _ _ _ _ _ _ _ H1 H2) in H.
  injection H as <-.
  eexists. split.
  - apply (reaction_is_reversed_sorted argsort argsort_sorted
             _ _ _ _ _ _ _ _ H2 H1).
  - split.
    + destruct (sortable_gt (sortable_of s1) (sortable_of s2)) eqn:G;
        [| reflexivity].
      rewrite (sortable_gt_asym _ _ G). reflexivity.
    + intros G12 G21. rewrite H1, H2. f_equal.
      apply sortable_of_inj. apply sortable_gt_total; assumption.
Qed.

End CanonicalForm.

Lemma sort_together_result_not_reversed_witness :
  reaction_is_reversed lex_argsort
    [["InChI=1S/CH3/h1H3"; "InChI=1S/H2O/h1H2"];
     ["InChI=1S/CH4/h1H4"; "InChI=1S/HO/h1H"]]
    [[0; 0]; [0; 0]] [[2; 1]; [1; 2]] = Ok false.
Proof.
  apply (sort_together_result_not_reversed lex_argsort lex_argsort_sorted
           (reaction_of methane_hydroxyl methyl_water)).
  vm_compute. reflexivity.
Defined.

Lemma reaction_is_reversed_asymmetric_witness :
  exists b',
    reaction_is_reversed lex_argsort
      [["InChI=1S/H2O/h1H2"]; ["InChI=1S/HO/h1H"; "InChI=1S/CH4/h1H4"]]
      [[0]; [0; 0]] [[1]; [2; 1]] = Ok b'
    /\ true && b' = false
    /\ (true = false -> b' = false ->
        _sort_together lex_argsort
          ["InChI=1S/HO/h1H"; "InChI=1S/CH4/h1H4"] [0; 0] [2; 1]
        = _sort_together lex_argsort ["InChI=1S/H2O/h1H2"] [0] [1]).
Proof.
  apply (reaction_is_reversed_asymmetric lex_argsort lex_argsort_sorted).
  vm_compute. reflexivity.
Defined.

(** ** Arity *)

Lemma not_two_sided_shape {A B C : Type}
    (a : list A) (b : list B) (c : list C) (R : Type) (k : A -> A -> B -> B -> C -> C -> R) (d : R) :
  two_sided a b c = false ->
  match a, b, c with
  | [a1; a2], [b1; b2], [c1; c2] => k a1 a2 b1 b2 c1 c2
  | _, _, _ => d
  end = d.
Proof.
  intros H.
  destruct a as [| a1 [| a2 [| ? ?]]]; try reflexivity.
  destruct b as [| b1 [| b2 [| ? ?]]]; try reflexivity.
  destruct c as [| c1 [| c2 [| ? ?]]]; try reflexivity.
  discriminate H.
Qed.

(** A reaction that does not come as exactly two sides of identifiers,
    of charges and of multiplicities is refused: [sort_together] and
    [reaction_is_reversed] fail with an assertion error, and so does
    [reaction_leaf] in safe mode, while without safe mode
    [reaction_leaf] fails on unpacking, with a value error. *)
Theorem reaction_arity (argsort : list string -> list nat)
    (sorted_ : list string -> list string)
    (is_standard_form is_complete : string -> bool)
    (standard_form : string -> string) (join : list string -> string)
    (inchi_key formula_layer first_hash second_hash_with_extension
       : string -> string)
    (_is_valid_inchi_multiplicity : string -> Z -> option Z -> bool)
    rxn_ichs rxn_chgs rxn_muls (ts_mul : Z) :
  two_sided rxn_ichs rxn_chgs rxn_muls = false ->
  sort_together argsort rxn_ichs rxn_chgs rxn_muls = Raise AssertionError
  /\ reaction_is_reversed argsort rxn_ichs rxn_chgs rxn_muls
     = Raise AssertionError
  /\ reaction_leaf true argsort sorted_ is_standard_form is_complete
       standard_form join inchi_key formula_layer first_hash
       second_hash_with_extension _is_valid_inchi_multiplicity
       rxn_ichs rxn_chgs rxn_muls ts_mul = Raise AssertionError
  /\ reaction_leaf false argsort sorted_ is_standard_form is_complete
       standard_form join inchi_key formula_layer first_hash
       second_hash_with_extension _is_valid_inchi_multiplicity
       rxn_ichs rxn_chgs rxn_muls ts_mul = Raise ValueError.
Proof.
  intros T. repeat split.
  - apply sort_together_not_two_sided. exact T.
  - apply reaction_is_reversed_not_two_sided. exact T.
  - unfold reaction_leaf.
    rewrite (sort_together_not_two_sided argsort _ _ _ T). reflexivity.
  - unfold reaction_leaf. simpl bind.
    apply (not_two_sided_shape rxn_ichs rxn_chgs rxn_muls). exact T.
Qed.

Lemma reaction_arity_witness :
  sort_together lex_argsort [["InChI=1S/H"]] [[0]] [[2]] = Raise AssertionError
  /\ reaction_is_reversed lex_argsort [["InChI=1S/H"]] [[0]] [[2]]
     = Raise AssertionError
  /\ reaction_leaf true lex_argsort (fun ichs => ichs) (fun _ => true)
       (fun _ => true) (fun ich => ich) (str_join ".") (fun ich => ich)
       (fun _ => "F") (fun _ => "K") (fun _ => "X-N")
       (parity_valid electron_table) [["InChI=1S/H"]] [[0]] [[2]] 2
     = Raise AssertionError
  /\ reaction_leaf false lex_argsort (fun ichs => ichs) (fun _ => true)
       (fun _ => true) (fun ich => ich) (str_join ".") (fun ich => ich)
       (fun _ => "F") (fun _ => "K") (fun _ => "X-N")
       (parity_valid electron_table) [["InChI=1S/H"]] [[0]] [[2]] 2
     = Raise ValueError.
Proof.
  apply reaction_arity. reflexivity.
Defined.

(** ** Identifier, charge and multiplicity stay together *)

Lemma take_by_index_combine {A B : Type} (xs : list A) (ys : list B)
    (idxs : list nat) (xs' : list A) (ys' : list B) :
  take_by_index xs idxs = Ok xs' ->
  take_by_index ys idxs = Ok ys' ->
  take_by_index (combine xs ys) idxs = Ok (combine xs' ys').
Proof.
  revert xs' ys'. induction idxs as [| i rest IH]; simpl; intros xs' ys' Hx Hy.
  - injection Hx as <-. injection Hy as <-. reflexivity.
  - destruct (nth_error xs i) as [x |] eqn:Ex; [| discriminate Hx].
    destruct (nth_error ys i) as [y |] eqn:Ey; [| discriminate Hy].
    apply bind_ok in Hx as (tx & Htx & Hx). injection Hx as <-.
    apply bind_ok in Hy as (ty & Hty & Hy). injection Hy as <-.
    assert (E : nth_error (combine xs ys) i = Some (x, y)).
    { clear - Ex Ey. revert ys i Ex Ey.
      induction xs as [| a xs IHxs]; intros [| b ys] [| i]; simpl;
        try discriminate; intros Ex Ey.
      - congruence.
      - apply IHxs; assumption. }
    rewrite E, (IH _ _ Htx Hty). reflexivity.
Qed.

Lemma take_by_index_In {A : Type} (xs : list A) (idxs : list nat)
    (xs' : list A) (x : A) :
  take_by_index xs idxs = Ok xs' -> In x xs' -> In x xs.
Proof.
  revert xs'. induction idxs as [| i rest IH]; simpl; intros xs' H Hin.
  - injection H as <-. destruct Hin.
  - destruct (nth_error xs i) as [y |] eqn:E; [| discriminate H].
    apply bind_ok in H as (t & Ht & H). injection H as <-.
    destruct Hin as [<- | Hin].
    + eapply nth_error_In; eauto.
    + eapply IH; eauto.
Qed.

(** The per-side sort moves identifier, charge and multiplicity
    together: the triples of the sorted side are the triples of the
    side as given, taken at the positions [argsort] returned, so every
    triple that comes out went in, and the three sorted tuples have one
    length. *)
Theorem _sort_together_keeps_triples (argsort : list string -> list nat)
    ichs chgs muls ichs' chgs' muls' :
  _sort_together argsort ichs chgs muls = Ok (ichs', chgs', muls') ->
  take_by_index (combine ichs (combine chgs muls)) (argsort ichs)
  = Ok (combine ichs' (combine chgs' muls'))
  /\ (forall t, In t (combine ichs' (combine chgs' muls')) ->
                In t (combine ichs (combine chgs muls)))
  /\ List.length chgs' = List.length ichs'
  /\ List.length muls' = List.length ichs'.
Proof.
  unfold _sort_together. intros H.
  apply bind_ok in H as (a & Ha & H).
  apply bind_ok in H as (b & Hb & H).
  apply bind_ok in H as (c & Hc & H).
  injection H as <- <- <-.
  pose proof (take_by_index_combine _ _ _ _ _ Ha
                (take_by_index_combine _ _ _ _ _ Hb Hc)) as E.
  split; [exact E |]. split.
  - intros t Hin. exact (take_by_index_In _ _ _ t E Hin).
  - rewrite (take_by_index_length _ _ _ Ha), (take_by_index_length _ _ _ Hb),
      (take_by_index_length _ _ _ Hc). split; reflexivity.
Qed.

Lemma _sort_together_keeps_triples_witness :
  take_by_index
    (combine ["InChI=1S/HO/h1H"; "InChI=1S/CH4/h1H4"] (combine [-1; 0] [2; 1]))
    (lex_argsort ["InChI=1S/HO/h1H"; "InChI=1S/CH4/h1H4"])
  = Ok (combine ["InChI=1S/CH4/h1H4"; "InChI=1S/HO/h1H"]
          (combine [0; -1] [1; 2]))
  /\ (forall t,
        In t (combine ["InChI=1S/CH4/h1H4"; "InChI=1S/HO/h1H"]
                (combine [0; -1] [1; 2])) ->
        In t (combine ["InChI=1S/HO/h1H"; "InChI=1S/CH4/h1H4"]
                (combine [-1; 0] [2; 1])))
  /\ List.length [0; -1] = List.length ["InChI=1S/CH4/h1H4"; "InChI=1S/HO/h1H"]
  /\ List.length [1; 2] = List.length ["InChI=1S/CH4/h1H4"; "InChI=1S/HO/h1H"].
Proof.
  apply (_sort_together_keeps_triples lex_argsort
           ["InChI=1S/HO/h1H"; "InChI=1S/CH4/h1H4"] [-1; 0] [2; 1]).
  vm_compute. reflexivity.
Defined.

(** ** Sides of unequal length *)

Lemma take_by_index_ok_range {A : Type} (xs : list A) (idxs : list nat)
    (ys : list A) :
  take_by_index xs idxs = Ok ys ->
  Forall (fun i => (i < List.length xs)%nat) idxs.
Proof.
  revert ys. induction idxs as [| i rest IH]; simpl; intros ys H.
  - constructor.
  - destruct (nth_error xs i) as [x |] eqn:E; [| discriminate H].
    apply bind_ok in H as (t & Ht & _).
    constructor; [| eapply IH; eauto].
    apply nth_error_Some. congruence.
Qed.

Lemma take_by_index_lookups {A : Type} (xs : list A) (idxs : list nat)
    (ys : list A) :
  take_by_index xs idxs = Ok ys -> map (nth_error xs) idxs = map Some ys.
Proof.
  revert ys. induction idxs as [| i rest IH]; simpl; intros ys H.
  - injection H as <-. reflexivity.
  - destruct (nth_error xs i) as [x |] eqn:E; [| discriminate H].
    apply bind_ok in H as (t & Ht & H). injection H as <-.
    simpl. f_equal. apply IH. exact Ht.
Qed.

Lemma map_Some_inj {A : Type} (l1 l2 : list A) :
  map Some l1 = map Some l2 -> l1 = l2.
Proof.
  revert l2. induction l1 as [| x t IH]; intros [| y u]; simpl;
    try discriminate; auto.
  intros H. injection H as -> H. f_equal. apply IH. exact H.
Qed.

(** Selecting at a rearrangement of all the positions rearranges the
    tuple. *)
Lemma take_by_index_Permutation {A : Type} (xs : list A) (idxs : list nat)
    (ys : list A) :
  Permutation idxs (seq 0 (List.length xs)) ->
  take_by_index xs idxs = Ok ys -> Permutation ys xs.
Proof.
  intros P H.
  apply take_by_index_lookups in H.
  pose proof (take_by_index_lookups xs _ xs
                (take_by_index_all xs _ eq_refl)) as Hall.
  apply (Permutation_map (nth_error xs)) in P.
  rewrite H, Hall in P.
  apply Permutation_map_inv in P as (l3 & E & P).
  apply map_Some_inj in E. subst l3. symmetry. exact P.
Qed.

Lemma seq_below (n len : nat) :
  Forall (fun i => (i < len)%nat) (seq 0 n) <-> (n <= len)%nat.
Proof.
  rewrite Forall_forall. split.
  - intros H. destruct n as [| n]; [lia |].
    specialize (H n). rewrite in_seq in H. lia.
  - intros H i Hi. apply in_seq in Hi. lia.
Qed.

Section UnequalLengths.

Variable argsort : list string -> list nat.

(** Contract of the identifier library: the positions returned are
    the positions of the argument, each once. *)
Hypothesis argsort_permutation :
  forall ichs, Permutation (argsort ichs) (seq 0 (List.length ichs)).

Lemma argsort_covers (ichs : list string) (len : nat) :
  Forall (fun i => (i < len)%nat) (argsort ichs)
  <-> (List.length ichs <= len)%nat.
Proof.
  rewrite <- seq_below. split; intros H.
  - eapply Permutation_Forall; [apply argsort_permutation | exact H].
  - eapply Permutation_Forall;
      [symmetry; apply argsort_permutation | exact H].
Qed.

(** A side with at least as many charges and multiplicities as
    identifiers sorts: the surplus is dropped without a word, the three
    tuples returned have the length of the identifiers, and the triples
    returned are a rearrangement of the triples given. *)
Theorem _sort_together_drops_surplus ichs chgs muls :
  (List.length ichs <= List.length chgs)%nat ->
  (List.length ichs <= List.length muls)%nat ->
  exists ichs' chgs' muls',
    _sort_together argsort ichs chgs muls = Ok (ichs', chgs', muls')
    /\ List.length ichs' = List.length ichs
    /\ List.length chgs' = List.length ichs
    /\ List.length muls' = List.length ichs
    /\ Permutation (combine ichs' (combine chgs' muls'))
         (combine ichs (combine chgs muls)).
Proof.
  intros Lc Lm.
  destruct (take_by_index_in_range ichs (argsort ichs)) as [a Ha];
    [apply argsort_covers; lia |].
  destruct (take_by_index_in_range chgs (argsort ichs)) as [b Hb];
    [apply argsort_covers; lia |].
  destruct (take_by_index_in_range muls (argsort ichs)) as [c Hc];
    [apply argsort_covers; lia |].
  exists a, b, c.
  assert (Ln : List.length (argsort ichs) = List.length ichs).
  { rewrite (Permutation_length (argsort_permutation ichs)).
    apply length_seq. }
  split; [unfold _sort_together; rewrite Ha, Hb, Hc; reflexivity |].
  rewrite (take_by_index_length _ _ _ Ha), (take_by_index_length _ _ _ Hb),
    (take_by_index_length _ _ _ Hc).
  repeat split; try exact Ln.
  apply (take_by_index_Permutation _ (argsort ichs)).
  - rewrite !length_combine.
    replace (Nat.min (List.length ichs)
               (Nat.min (List.length chgs) (List.length muls)))
      with (List.length ichs) by lia.
    apply argsort_permutation.
  - apply take_by_index_combine; [exact Ha |].
    apply take_by_index_combine; assumption.
Qed.

(** A side with fewer charges or multiplicities than identifiers does
    not sort: the selection runs off the end of the shorter tuple, with
    an index error, and [sort_together] and [reaction_is_reversed] fail
    with it. *)
Theorem _sort_together_missing_entries ichs chgs muls :
  (List.length chgs < List.length ichs)%nat
  \/ (List.length muls < List.length ichs)%nat ->
  _sort_together argsort ichs chgs muls = Raise IndexError
  /\ (forall ichs2 chgs2 muls2,
        sort_together argsort [ichs; ichs2] [chgs; chgs2] [muls; muls2]
        = Raise IndexError
        /\ reaction_is_reversed argsort [ichs; ichs2] [chgs; chgs2]
             [muls; muls2] = Raise IndexError).
Proof.
  intros H.
  assert (E : _sort_together argsort ichs chgs muls = Raise IndexError).
  { destruct (_sort_together argsort ichs chgs muls) as [[[a b] c] | e] eqn:S.
    - exfalso. unfold _sort_together in S.
      apply bind_ok in S as (a' & Ha & S).
      apply bind_ok in S as (b' & Hb & S).
      apply bind_ok in S as (c' & Hc & _).
      apply take_by_index_ok_range, argsort_covers in Hb.
      apply take_by_index_ok_range, argsort_covers in Hc. lia.
    - f_equal. unfold _sort_together in S.
      destruct (take_by_index ichs (argsort ichs)) eqn:E1; simpl in S;
        [| injection S as <-; eapply take_by_index_raise; eauto].
      destruct (take_by_index chgs (argsort ichs)) eqn:E2; simpl in S;
        [| injection S as <-; eapply take_by_index_raise; eauto].
      destruct (take_by_index muls (argsort ichs)) eqn:E3; simpl in S;
        [discriminate S
        | injection S as <-; eapply take_by_index_raise; eauto]. }
  split; [exact E |]. intros ichs2 chgs2 muls2.
  unfold sort_together, reaction_is_reversed. simpl. rewrite E.
  split; reflexivity.
Qed.

End UnequalLengths.

Lemma insert_keyed_Permutation {A : Type} (leb : A -> A -> bool) p l :
  Permutation (insert_keyed leb p l) (p :: l).
Proof.
  induction l as [| q t IH]; simpl.
  - reflexivity.
  - destruct (leb (snd p) (snd q)); [reflexivity |].
    rewrite IH. apply perm_swap.
Qed.

Lemma sort_keyed_Permutation {A : Type} (leb : A -> A -> bool) l :
  Permutation (sort_keyed leb l) l.
Proof.
  induction l as [| p t IH]; simpl.
  - reflexivity.
  - rewrite insert_keyed_Permutation. constructor. exact IH.
Qed.

Lemma lex_argsort_permutation (ichs : list string) :
  Permutation (lex_argsort ichs) (seq 0 (List.length ichs)).
Proof.
  unfold lex_argsort, stable_argsort.
  rewrite <- (enumerate_from_fst string 0 ichs).
  apply Permutation_map. apply sort_keyed_Permutation.
Qed.

Lemma _sort_together_drops_surplus_witness :
  exists ichs' chgs' muls',
    _sort_together lex_argsort ["InChI=1S/HO/h1H"; "InChI=1S/CH4/h1H4"]
      [0; 0; 1] [2; 1] = Ok (ichs', chgs', muls')
    /\ List.length ichs' = 2%nat
    /\ List.length chgs' = 2%nat
    /\ List.length muls' = 2%nat
    /\ Permutation (combine ichs' (combine chgs' muls'))
         (combine ["InChI=1S/HO/h1H"; "InChI=1S/CH4/h1H4"]
            (combine [0; 0; 1] [2; 1])).
Proof.
  apply (_sort_together_drops_surplus lex_argsort lex_argsort_permutation
           ["InChI=1S/HO/h1H"; "InChI=1S/CH4/h1H4"] [0; 0; 1] [2; 1]);
    simpl; lia.
Defined.

Lemma _sort_together_missing_entries_witness :
  _sort_together lex_argsort ["InChI=1S/HO/h1H"; "InChI=1S/CH4/h1H4"]
    [0] [2; 1] = Raise IndexError
  /\ (forall ichs2 chgs2 muls2,
        sort_together lex_argsort
          [["InChI=1S/HO/h1H"; "InChI=1S/CH4/h1H4"]; ichs2] [[0]; chgs2]
          [[2; 1]; muls2] = Raise IndexError
        /\ reaction_is_reversed lex_argsort
             [["InChI=1S/HO/h1H"; "InChI=1S/CH4/h1H4"]; ichs2] [[0]; chgs2]
             [[2; 1]; muls2] = Raise IndexError).
Proof.
  apply (_sort_together_missing_entries lex_argsort lex_argsort_permutation).
  left. simpl. lia.
Defined.

(** ** Safe mode *)

Lemma list_eqb_eq {A : Type} (eqb : A -> A -> bool) (l1 l2 : list A) :
  (forall x y, eqb x y = true -> x = y) ->
  list_eqb eqb l1 l2 = true -> l1 = l2.
Proof.
  intros Heq. revert l2.
  induction l1 as [| x t IH]; intros [| y u]; simpl; try discriminate; auto.
  intros H. apply andb_prop in H as [Hxy Htu].
  f_equal; [apply Heq; exact Hxy | apply IH; exact Htu].
Qed.

Lemma reaction_eqb_eq (x y : reaction) : reaction_eqb x y = true -> x = y.
Proof.
  destruct x as [[xi xc] xm], y as [[yi yc] ym]. unfold reaction_eqb.
  intros H. apply andb_prop in H as [H Hm]. apply andb_prop in H as [Hi Hc].
  apply list_eqb_eq in Hi;
    [| intros a b; apply list_eqb_eq; intros ? ?; apply String.eqb_eq].
  apply list_eqb_eq in Hc;
    [| intros a b; apply list_eqb_eq; intros ? ?; apply Z.eqb_eq].
  apply list_eqb_eq in Hm;
    [| intros a b; apply list_eqb_eq; intros ? ?; apply Z.eqb_eq].
  congruence.
Qed.

Section SafeMode.

Variable argsort : list string -> list nat.
Variable sorted_ : list string -> list string.
Variable is_standard_form : string -> bool.
Variable is_complete : string -> bool.
Variable standard_form : string -> string.
Variable join : list string -> string.
Variable inchi_key : string -> string.
Variable formula_layer : string -> string.
Variable first_hash : string -> string.
Variable second_hash_with_extension : string -> string.
Variable _is_valid_inchi_multiplicity : string -> Z -> option Z -> bool.

Lemma _reactant_leaf_safe_then_unsafe ichs chgs muls name :
  _reactant_leaf true sorted_ is_standard_form is_complete standard_form join
    inchi_key formula_layer first_hash second_hash_with_extension
    _is_valid_inchi_multiplicity ichs chgs muls = Ok name ->
  _reactant_leaf false sorted_ is_standard_form is_complete standard_form join
    inchi_key formula_layer first_hash second_hash_with_extension
    _is_valid_inchi_multiplicity ichs chgs muls = Ok name.
Proof.
  unfold _reactant_leaf. intros H.
  apply bind_ok in H as ([] & _ & H). exact H.
Qed.

(** In safe mode [reaction_leaf] names only reactions that are in
    canonical order already: where it returns, [sort_together] returns
    its arguments unchanged. *)
Theorem reaction_leaf_safe_mode_canonical rxn_ichs rxn_chgs rxn_muls ts_mul
    name :
  reaction_leaf true argsort sorted_ is_standard_form is_complete
    standard_form join inchi_key formula_layer first_hash
    second_hash_with_extension _is_valid_inchi_multiplicity
    rxn_ichs rxn_chgs rxn_muls ts_mul = Ok name ->
  sort_together argsort rxn_ichs rxn_chgs rxn_muls
  = Ok (rxn_ichs, rxn_chgs, rxn_muls).
Proof.
  unfold reaction_leaf. intros H.
  apply bind_ok in H as ([] & H & _).
  apply bind_ok in H as (y & Hy & H).
  apply py_assert_ok in H as [E _].
  apply reaction_eqb_eq in E. subst y. exact Hy.
Qed.

(** Safe mode only refuses: a name returned in safe mode is the name
    returned without it, for [species_leaf], for a reactant side and
    for [reaction_leaf]. *)
Theorem safe_mode_only_refuses :
  (forall ich chg mul name,
      species_leaf true is_standard_form is_complete inchi_key formula_layer
        first_hash second_hash_with_extension _is_valid_inchi_multiplicity
        ich chg mul = Ok name ->
      species_leaf false is_standard_form is_complete inchi_key formula_layer
        first_hash second_hash_with_extension _is_valid_inchi_multiplicity
        ich chg mul = Ok name)
  /\ (forall ichs chgs muls name,
        _reactant_leaf true sorted_ is_standard_form is_complete standard_form
          join inchi_key formula_layer first_hash second_hash_with_extension
          _is_valid_inchi_multiplicity ichs chgs muls = Ok name ->
        _reactant_leaf false sorted_ is_standard_form is_complete
          standard_form join inchi_key formula_layer first_hash
          second_hash_with_extension _is_valid_inchi_multiplicity
          ichs chgs muls = Ok name)
  /\ (forall rxn_ichs rxn_chgs rxn_muls ts_mul name,
        reaction_leaf true argsort sorted_ is_standard_form is_complete
          standard_form join inchi_key formula_layer first_hash
          second_hash_with_extension _is_valid_inchi_multiplicity
          rxn_ichs rxn_chgs rxn_muls ts_mul = Ok name ->
        reaction_leaf false argsort sorted_ is_standard_form is_complete
          standard_form join inchi_key formula_layer first_hash
          second_hash_with_extension _is_valid_inchi_multiplicity
          rxn_ichs rxn_chgs rxn_muls ts_mul = Ok name).
Proof.
  split; [| split].
  - intros ich chg mul name. unfold species_leaf. intros H.
    apply bind_ok in H as ([] & _ & H). exact H.
  - exact _reactant_leaf_safe_then_unsafe.
  - intros rxn_ichs rxn_chgs rxn_muls ts_mul name. unfold reaction_leaf.
    intros H. apply bind_ok in H as ([] & _ & H). simpl bind.
    destruct rxn_ichs as [| i1 [| i2 [| ? ?]]]; try discriminate H.
    destruct rxn_chgs as [| c1 [| c2 [| ? ?]]]; try discriminate H.
    destruct rxn_muls as [| m1 [| m2 [| ? ?]]]; try discriminate H.
    apply bind_ok in H as (l1 & H1 & H).
    apply bind_ok in H as (l2 & H2 & H).
    rewrite (_reactant_leaf_safe_then_unsafe _ _ _ _ H1).
    rewrite (_reactant_leaf_safe_then_unsafe _ _ _ _ H2).
    exact H.
Qed.

(** A reactant side is refused with an assertion error, in either
    mode, when the identifiers, charges and multiplicities differ in
    number or when a multiplicity is not valid for its identifier. *)
Theorem _reactant_leaf_refuses (safemode_is_on : bool) ichs chgs muls :
  List.length ichs <> List.length chgs
  \/ List.length chgs <> List.length muls
  \/ forallb (fun '(ich, mul) => _is_valid_inchi_multiplicity ich mul None)
       (combine ichs muls) = false ->
  _reactant_leaf safemode_is_on sorted_ is_standard_form is_complete
    standard_form join inchi_key formula_layer first_hash
    second_hash_with_extension _is_valid_inchi_multiplicity ichs chgs muls
  = Raise AssertionError.
Proof.
  intros H. unfold _reactant_leaf, py_assert.
  assert (E : ((List.length ichs =? List.length chgs)
               && (List.length chgs =? List.length muls))%nat
              && forallb
                   (fun '(ich, mul) =>
                      _is_valid_inchi_multiplicity ich mul None)
                   (combine ichs muls) = false).
  { destruct H as [H | [H | H]].
    - apply Nat.eqb_neq in H. rewrite H. reflexivity.
    - apply Nat.eqb_neq in H. rewrite H, andb_false_r. reflexivity.
    - rewrite H. apply andb_false_r. }
  destruct safemode_is_on; simpl.
  - destruct (forallb _ ichs); simpl; [| reflexivity].
    destruct (list_eqb String.eqb ichs (sorted_ ichs)); simpl;
      [| reflexivity].
    destruct ((_ =? _)%nat && _); [| reflexivity].
    simpl in E. rewrite E. reflexivity.
  - destruct ((_ =? _)%nat && _); [| reflexivity].
    simpl in E. rewrite E. reflexivity.
Qed.

End SafeMode.

Lemma reaction_leaf_safe_mode_canonical_witness :
  sort_together lex_argsort
    [["InChI=1S/CH3/h1H3"; "InChI=1S/H2O/h1H2"];
     ["InChI=1S/CH4/h1H4"; "InChI=1S/HO/h1H"]]
    [[0; 0]; [0; 0]] [[2; 1]; [1; 2]]
  = Ok ([["InChI=1S/CH3/h1H3"; "InChI=1S/H2O/h1H2"];
         ["InChI=1S/CH4/h1H4"; "InChI=1S/HO/h1H"]],
        [[0; 0]; [0; 0]], [[2; 1]; [1; 2]]).
Proof.
  apply (reaction_leaf_safe_mode_canonical lex_argsort (fun ichs => ichs)
           (fun _ => true) (fun _ => true) (fun ich => ich) (str_join ".")
           (fun ich => ich) (fun _ => "F") (fun _ => "K") (fun _ => "X-N")
           (parity_valid electron_table) _ _ _ 2
           "F/K/0_0/2_1/X-N/F/K/0_0/1_2/X-N/2").
  vm_compute. reflexivity.
Defined.

Lemma safe_mode_only_refuses_witness :
  species_leaf false (fun _ => true) (fun _ => true) (fun ich => ich)
    (fun _ => "CH4") (fun _ => "K") (fun _ => "X-N")
    (parity_valid electron_table) "InChI=1S/CH4/h1H4" (PyInt 0) (PyInt 1)
  = Ok "CH4/K/0/1/X-N".
Proof.
  apply (proj1 (safe_mode_only_refuses lex_argsort (fun ichs => ichs)
                  (fun _ => true) (fun _ => true) (fun ich => ich)
                  (str_join ".") (fun ich => ich) (fun _ => "CH4")
                  (fun _ => "K") (fun _ => "X-N")
                  (parity_valid electron_table))).
  vm_compute. reflexivity.
Defined.

Lemma _reactant_leaf_refuses_witness :
  _reactant_leaf false (fun ichs => ichs) (fun _ => true) (fun _ => true)
    (fun ich => ich) (str_join ".") (fun ich => ich) (fun _ => "F")
    (fun _ => "K") (fun _ => "X-N") (parity_valid electron_table)
    ["InChI=1S/CH4/h1H4"; "InChI=1S/HO/h1H"] [0; 0; 1] [1; 2]
  = Raise AssertionError.
Proof.
  apply _reactant_leaf_refuses. left. simpl. lia.
Defined.

(** ** Validators and new identifiers *)

Lemma str_getitem_empty : str_getitem "" 0 = Raise IndexError.
Proof. reflexivity. Qed.

Section Validators.

Variable _is_random_string_identifier : string -> bool.

Lemma validator_ok (tag : ascii) (s name : string) :
  (c <- str_getitem s 0 ;;
   py_assert (Ascii.eqb c tag)
     (py_assert (_is_random_string_identifier (str_tail s)) (Ok s)))
  = Ok name ->
  name = s
  /\ exists rest, s = String tag rest
                  /\ _is_random_string_identifier rest = true.
Proof.
  destruct s as [| c rest]; [discriminate |].
  rewrite str_getitem_head. simpl bind. intros H.
  apply py_assert_ok in H as [Hc H].
  apply py_assert_ok in H as [Hp H].
  apply Ascii.eqb_eq in Hc. subst c. injection H as <-.
  split; [reflexivity |]. exists rest. split; [reflexivity | exact Hp].
Qed.

(** Whatever a validator returns is its argument, and it returns only
    for a string that starts with its tag and goes on with a token the
    random-string-identifier predicate accepts. *)
Theorem validators_sound (s name : string) :
  (conformer_branch _is_random_string_identifier s = Ok name ->
   name = s /\ exists rest, s = String "r" rest
                            /\ _is_random_string_identifier rest = true)
  /\ (conformer_leaf _is_random_string_identifier s = Ok name ->
      name = s /\ exists rest, s = String "c" rest
                               /\ _is_random_string_identifier rest = true)
  /\ (tau_leaf _is_random_string_identifier s = Ok name ->
      name = s /\ exists rest, s = String "t" rest
                               /\ _is_random_string_identifier rest = true).
Proof.
  split; [| split]; intros H; apply validator_ok in H; exact H.
Qed.

(** How the validators refuse: the empty string with an index error,
    before any check; a string with another first character, or with a
    remainder the predicate rejects, with an assertion error. *)
Theorem validators_refuse :
  conformer_branch _is_random_string_identifier "" = Raise IndexError
  /\ conformer_leaf _is_random_string_identifier "" = Raise IndexError
  /\ tau_leaf _is_random_string_identifier "" = Raise IndexError
  /\ (forall (c : ascii) (rest : string),
        (c <> "r"%char \/ _is_random_string_identifier rest = false ->
         conformer_branch _is_random_string_identifier (String c rest)
         = Raise AssertionError)
        /\ (c <> "c"%char \/ _is_random_string_identifier rest = false ->
            conformer_leaf _is_random_string_identifier (String c rest)
            = Raise AssertionError)
        /\ (c <> "t"%char \/ _is_random_string_identifier rest = false ->
            tau_leaf _is_random_string_identifier (String c rest)
            = Raise AssertionError)).
Proof.
  split; [reflexivity |]. split; [reflexivity |]. split; [reflexivity |].
  intros c rest.
  split; [| split]; intros H;
    unfold conformer_branch, conformer_leaf, tau_leaf;
    rewrite str_getitem_head; simpl bind; unfold py_assert; simpl str_tail.
  - destruct (Ascii.eqb c "r") eqn:E; [| reflexivity].
    apply Ascii.eqb_eq in E. destruct H as [H | ->]; [contradiction |].
    reflexivity.
  - destruct (Ascii.eqb c "c") eqn:E; [| reflexivity].
    apply Ascii.eqb_eq in E. destruct H as [H | ->]; [contradiction |].
    reflexivity.
  - destruct (Ascii.eqb c "t") eqn:E; [| reflexivity].
    apply Ascii.eqb_eq in E. destruct H as [H | ->]; [contradiction |].
    reflexivity.
Qed.

(** A new identifier passes the validator of its own kind, which gives
    it back, provided the token drawn is one the predicate accepts; the
    validators of the other two kinds refuse it whatever was drawn. *)
Theorem new_identifiers_validate (drawn : string) :
  _is_random_string_identifier drawn = true ->
  let cid := generate_new_conformer_id drawn in
  let rid := generate_new_ring_id drawn in
  let tid := generate_new_tau_id drawn in
  conformer_leaf _is_random_string_identifier cid = Ok cid
  /\ conformer_branch _is_random_string_identifier rid = Ok rid
  /\ tau_leaf _is_random_string_identifier tid = Ok tid
  /\ conformer_branch _is_random_string_identifier cid = Raise AssertionError
  /\ tau_leaf _is_random_string_identifier cid = Raise AssertionError
  /\ conformer_leaf _is_random_string_identifier rid = Raise AssertionError
  /\ tau_leaf _is_random_string_identifier rid = Raise AssertionError
  /\ conformer_leaf _is_random_string_identifier tid = Raise AssertionError
  /\ conformer_branch _is_random_string_identifier tid = Raise AssertionError.
Proof.
  intros H. simpl.
  unfold conformer_branch, conformer_leaf, tau_leaf,
    generate_new_conformer_id, generate_new_ring_id, generate_new_tau_id.
  simpl append. rewrite !str_getitem_head. simpl. rewrite H.
  repeat split; reflexivity.
Qed.

End Validators.

Lemma validators_sound_witness :
  "rAB12cd" = "rAB12cd"
  /\ exists rest, "rAB12cd" = String "r" rest
                  /\ alnum_identifier rest = true.
Proof.
  apply (proj1 (validators_sound alnum_identifier "rAB12cd" "rAB12cd")).
  vm_compute. reflexivity.
Defined.

Lemma validators_refuse_witness :
  conformer_branch alnum_identifier "xAB12cd" = Raise AssertionError.
Proof.
  apply (proj1 (proj2 (proj2 (proj2 (validators_refuse alnum_identifier)))
                  "x"%char "AB12cd")).
  left. discriminate.
Defined.

Lemma new_identifiers_validate_witness :
  conformer_leaf alnum_identifier "cq7Zk" = Ok "cq7Zk"
  /\ conformer_branch alnum_identifier "rq7Zk" = Ok "rq7Zk"
  /\ tau_leaf alnum_identifier "tq7Zk" = Ok "tq7Zk"
  /\ conformer_branch alnum_identifier "cq7Zk" = Raise AssertionError
  /\ tau_leaf alnum_identifier "cq7Zk" = Raise AssertionError
  /\ conformer_leaf alnum_identifier "rq7Zk" = Raise AssertionError
  /\ tau_leaf alnum_identifier "rq7Zk" = Raise AssertionError
  /\ conformer_leaf alnum_identifier "tq7Zk" = Raise AssertionError
  /\ conformer_branch alnum_identifier "tq7Zk" = Raise AssertionError.
Proof.
  apply (new_identifiers_validate alnum_identifier "q7Zk"). reflexivity.
Defined.

(** ** Order and recovery of the numeric names *)

Lemma transition_state_leaf_ok (num : pyval) (name : string) :
  transition_state_leaf num = Ok name ->
  0 <= int_val num <= 99 /\ name = two_digits (int_val num).
Proof.
  unfold transition_state_leaf. intros H.
  apply py_assert_ok in H as [C H].
  apply andb_prop in C as [_ C]. apply andb_prop in C as [C1 C2].
  apply Z.leb_le in C1, C2. injection H as <-.
  split; [lia |].
  destruct (numeric_leaf_in_range (Z.to_nat (int_val num))) as [E _]; [lia |].
  rewrite Z2Nat.id in E by lia.
  unfold transition_state_leaf, py_assert in E. simpl in E.
  destruct ((0 <=? int_val num) && (int_val num <=? 99)); [| discriminate E].
  injection E as E. exact E.
Qed.

Lemma same_order_eq (c1 c2 : comparison) : same_order c1 c2 = true -> c1 = c2.
Proof. destruct c1, c2; simpl; congruence. Qed.

Lemma two_digits_order_table :
  forallb
    (fun i =>
       forallb
         (fun j =>
            same_order
              (String.compare (two_digits (Z.of_nat i)) (two_digits (Z.of_nat j)))
              (Z.compare (Z.of_nat i) (Z.of_nat j)))
         (seq 0 100))
    (seq 0 100) = true.
Proof. vm_compute. reflexivity. Qed.

Lemma two_digits_order (x y : Z) :
  0 <= x <= 99 -> 0 <= y <= 99 ->
  String.compare (two_digits x) (two_digits y) = Z.compare x y.
Proof.
  intros Hx Hy. pose proof two_digits_order_table as T.
  rewrite forallb_forall in T.
  specialize (T (Z.to_nat x)). rewrite forallb_forall in T.
  specialize (T ltac:(apply in_seq; lia) (Z.to_nat y) ltac:(apply in_seq; lia)).
  rewrite !Z2Nat.id in T by lia. apply same_order_eq. exact T.
Qed.

(** Zero padding makes the names sort like the numbers: two numeric
    leaves compare, character by character, as their indices compare,
    so distinct indices have distinct names and a listing by name is a
    listing by index. *)
Theorem numeric_leaves_sort_like_numbers (n m : pyval) (a b : string) :
  (transition_state_leaf n = Ok a -> transition_state_leaf m = Ok b ->
   String.compare a b = Z.compare (int_val n) (int_val m))
  /\ (zmatrix_leaf n = Ok a -> zmatrix_leaf m = Ok b ->
      String.compare a b = Z.compare (int_val n) (int_val m))
  /\ (vrctst_leaf n = Ok a -> vrctst_leaf m = Ok b ->
      String.compare a b = Z.compare (int_val n) (int_val m)).
Proof.
  change (zmatrix_leaf n) with (transition_state_leaf n).
  change (zmatrix_leaf m) with (transition_state_leaf m).
  change (vrctst_leaf n) with (transition_state_leaf n).
  change (vrctst_leaf m) with (transition_state_leaf m).
  assert (G : transition_state_leaf n = Ok a ->
              transition_state_leaf m = Ok b ->
              String.compare a b = Z.compare (int_val n) (int_val m)).
  { intros Hn Hm.
    apply transition_state_leaf_ok in Hn as [Rn ->].
    apply transition_state_leaf_ok in Hm as [Rm ->].
    apply two_digits_order; assumption. }
  auto.
Qed.

Lemma numeric_leaves_sort_like_numbers_witness :
  String.compare "09" "10" = Z.compare 9 10.
Proof.
  apply (proj1 (numeric_leaves_sort_like_numbers (PyInt 9) (PyInt 10)
                  "09" "10")); reflexivity.
Defined.

(** *** Reading an index back *)

Lemma int_of_str_unsigned (c : ascii) (t : string) :
  is_alnum c = true ->
  int_of_str (String c t)
  = match option_map N.of_uint (NilEmpty.uint_of_string (String c t)) with
    | Some n => Ok (Z.of_N n)
    | None => Raise ValueError
    end.
Proof.
  intros H. unfold int_of_str.
  destruct (Ascii.eqb c "-") eqn:E1;
    [apply Ascii.eqb_eq in E1; subst c; discriminate H |].
  destruct (Ascii.eqb c "+") eqn:E2;
    [apply Ascii.eqb_eq in E2; subst c; discriminate H |].
  destruct c as [[] [] [] [] [] [] [] []];
    try discriminate E1; try discriminate E2; reflexivity.
Qed.

Lemma uint_string_nonempty (d : Decimal.uint) :
  d <> Decimal.Nil -> NilEmpty.string_of_uint d <> EmptyString.
Proof. destruct d; simpl; congruence. Qed.

Lemma digits_nonempty (n : N) : digits n <> EmptyString.
Proof.
  unfold digits, NilZero.string_of_uint.
  destruct (N.to_uint n) eqn:E; try discriminate;
    rewrite <- E; apply uint_string_nonempty; congruence.
Qed.

(** The digits of a number parse to a numeral of that number. *)
Lemma digits_parse (n : N) :
  option_map N.of_uint (NilEmpty.uint_of_string (digits n)) = Some n.
Proof.
  unfold digits, NilZero.string_of_uint.
  pose proof (DecimalN.Unsigned.of_to n) as E.
  destruct (N.to_uint n) eqn:U.
  - simpl. f_equal. rewrite <- E. reflexivity.
  - rewrite NilEmpty.usu. simpl. f_equal. exact E.
  - rewrite NilEmpty.usu. simpl. f_equal. exact E.
  - rewrite NilEmpty.usu. simpl. f_equal. exact E.
  - rewrite NilEmpty.usu. simpl. f_equal. exact E.
  - rewrite NilEmpty.usu. simpl. f_equal. exact E.
  - rewrite NilEmpty.usu. simpl. f_equal. exact E.
  - rewrite NilEmpty.usu. simpl. f_equal. exact E.
  - rewrite NilEmpty.usu. simpl. f_equal. exact E.
  - rewrite NilEmpty.usu. simpl. f_equal. exact E.
  - rewrite NilEmpty.usu. simpl. f_equal. exact E.
Qed.

Lemma head_alnum (p : ascii -> bool) (s : string) :
  s <> EmptyString -> all_chars p s = true ->
  exists c t, s = String c t /\ p c = true.
Proof.
  destruct s as [| c t]; [congruence |]. intros _ H.
  unfold all_chars in H. simpl in H. apply andb_prop in H as [H _].
  exists c, t. split; [reflexivity | exact H].
Qed.

Lemma int_of_str_digits (n : N) : int_of_str (digits n) = Ok (Z.of_N n).
Proof.
  destruct (head_alnum is_alnum (digits n) (digits_nonempty n)
              (digits_alnum n)) as (c & t & E & Hc).
  pose proof (digits_parse n) as P. rewrite E in *.
  rewrite (int_of_str_unsigned c t Hc), P. reflexivity.
Qed.

Lemma int_of_str_zero_digits (n : N) :
  int_of_str (String "0" (digits n)) = Ok (Z.of_N n).
Proof.
  rewrite int_of_str_unsigned by reflexivity.
  pose proof (digits_parse n) as P.
  simpl NilEmpty.uint_of_string.
  destruct (NilEmpty.uint_of_string (digits n)) as [d |]; [| discriminate P].
  simpl in *. injection P as <-. reflexivity.
Qed.

Lemma int_of_str_negative (t : string) :
  t <> EmptyString ->
  int_of_str (String "-" t)
  = match option_map N.of_uint (NilEmpty.uint_of_string t) with
    | Some n => Ok (- Z.of_N n)
    | None => Raise ValueError
    end.
Proof. destruct t; [congruence | reflexivity]. Qed.

Lemma pad_left_long (fill : ascii) (width : nat) (s : string) :
  (width <= String.length s)%nat -> pad_left fill width s = s.
Proof.
  intros H. unfold pad_left.
  replace (width - String.length s)%nat with 0%nat by lia. reflexivity.
Qed.

(** [int] reads back what the fill to width two wrote, for every
    integer. *)
Lemma int_of_str_fill0_right (z : Z) :
  int_of_str (format_fill0_right 2 z) = Ok z.
Proof.
  unfold format_fill0_right, str_int.
  pose proof (digits_nonempty (Z.abs_N z)) as NE.
  destruct (z <? 0) eqn:S.
  - apply Z.ltb_lt in S.
    rewrite pad_left_long.
    + change ("-" ++ digits (Z.abs_N z))
        with (String "-" (digits (Z.abs_N z))).
      rewrite (int_of_str_negative _ NE), digits_parse. f_equal. lia.
    + destruct (digits (Z.abs_N z)); [congruence | simpl; lia].
  - apply Z.ltb_ge in S.
    replace z with (Z.of_N (Z.abs_N z)) at 2 by lia.
    destruct (digits (Z.abs_N z)) as [| c [| c' t]] eqn:D.
    + congruence.
    + change (pad_left "0" 2 (String c "")) with (String "0" (String c "")).
      rewrite <- D. apply int_of_str_zero_digits.
    + rewrite pad_left_long by (simpl; lia).
      rewrite <- D. apply int_of_str_digits.
Qed.

Lemma letter_at_position (macro : Z) :
  0 <= macro < 26 -> Z.of_nat (nat_of_ascii (letter_at macro)) - 65 = macro.
Proof.
  intros H. unfold letter_at. rewrite nat_ascii_embedding by lia. lia.
Qed.

(** Both indices can be read back from a sub-run leaf: for
    [0 <= macro_idx < 26] and any integer [micro_idx], the first
    character is the letter number [macro_idx] and [int] of the rest is
    [micro_idx], however many digits it takes; so different pairs of
    indices never share a name. *)
Theorem subrun_leaf_indices_recovered (macro micro : Z) :
  0 <= macro < 26 ->
  (exists rest,
      subrun_leaf (PyInt macro) (PyInt micro)
      = Ok (String (letter_at macro) rest)
      /\ Z.of_nat (nat_of_ascii (letter_at macro)) - 65 = macro
      /\ int_of_str rest = Ok micro)
  /\ (forall macro' micro',
        0 <= macro' < 26 ->
        subrun_leaf (PyInt macro') (PyInt micro')
        = subrun_leaf (PyInt macro) (PyInt micro) ->
        macro' = macro /\ micro' = micro).
Proof.
  intros H.
  assert (F : forall a i, 0 <= a < 26 ->
              subrun_leaf (PyInt a) (PyInt i)
              = Ok (String (letter_at a) (format_fill0_right 2 i))).
  { intros a i Ha. rewrite subrun_leaf_below_26 by lia.
    destruct (ascii_uppercase_getitem (Z.to_nat a)) as [E _]; [lia |].
    rewrite Z2Nat.id in E by lia. rewrite E. reflexivity. }
  split.
  - eexists. split; [apply F; exact H |].
    split; [apply letter_at_position; exact H | apply int_of_str_fill0_right].
  - intros macro' micro' H' E. rewrite !F in E by assumption.
    injection E as El Er. split.
    + rewrite <- (letter_at_position macro), <- (letter_at_position macro')
        by assumption. rewrite El. reflexivity.
    + pose proof (int_of_str_fill0_right micro') as P. rewrite Er in P.
      rewrite int_of_str_fill0_right in P. congruence.
Qed.

Lemma subrun_leaf_indices_recovered_witness :
  exists rest,
    subrun_leaf (PyInt 3) (PyInt 120) = Ok (String (letter_at 3) rest)
    /\ Z.of_nat (nat_of_ascii (letter_at 3)) - 65 = 3
    /\ int_of_str rest = Ok 120.
Proof.
  assert (R : 0 <= 3 < 26) by lia.
  exact (proj1 (subrun_leaf_indices_recovered 3 120 R)).
Defined.

(** Below zero the macro index is not refused but counted from the end
    of the alphabet, so that [macro_idx] and [macro_idx + 26] share a
    name for [-26 <= macro_idx <= -1]; below [-26] the look-up of the
    letter fails, with an index error. *)
Theorem subrun_leaf_negative_macro (macro micro : Z) :
  (-26 <= macro <= -1 ->
   subrun_leaf (PyInt macro) (PyInt micro)
   = subrun_leaf (PyInt (macro + 26)) (PyInt micro))
  /\ (macro < -26 ->
      subrun_leaf (PyInt macro) (PyInt micro) = Raise IndexError).
Proof.
  split; intros H.
  - rewrite !subrun_leaf_below_26 by lia.
    destruct (ascii_uppercase_getitem (Z.to_nat (macro + 26))) as [E1 E2];
      [lia |].
    rewrite Z2Nat.id in E1, E2 by lia.
    replace (macro + 26 - 26) with macro in E2 by lia.
    rewrite E1, E2. reflexivity.
  - rewrite subrun_leaf_below_26 by lia.
    unfold str_getitem.
    replace (macro <? 0) with true by (symmetry; apply Z.ltb_lt; lia).
    change (Z.of_nat (String.length ascii_uppercase)) with 26.
    replace (0 <=? macro + 26) with false
      by (symmetry; apply Z.leb_gt; lia).
    reflexivity.
Qed.

Lemma subrun_leaf_negative_macro_witness :
  subrun_leaf (PyInt (-3)) (PyInt 4) = subrun_leaf (PyInt (-3 + 26)) (PyInt 4)
  /\ subrun_leaf (PyInt (-27)) (PyInt 4) = Raise IndexError.
Proof.
  split.
  - apply (proj1 (subrun_leaf_negative_macro (-3) 4)). lia.
  - apply (proj2 (subrun_leaf_negative_macro (-27) 4)). lia.
Defined.

(** The build number is taken round a cycle of ten and nothing more:
    a number from 0 to 9 comes back as it is, not advanced, numbers ten
    apart come back the same, and a second application changes
    nothing. *)
Theorem get_next_build_number_cycle (n : Z) :
  (0 <= n <= 9 -> get_next_build_number n = n)
  /\ get_next_build_number (n + 10) = get_next_build_number n
  /\ get_next_build_number (get_next_build_number n) = get_next_build_number n.
Proof.
  unfold get_next_build_number. repeat split.
  - intros H. apply Z.mod_small. lia.
  - replace (n + 10) with (n + 1 * 10) by lia. apply Z.mod_add. lia.
  - apply Z.mod_mod. lia.
Qed.

Lemma get_next_build_number_cycle_witness : get_next_build_number 7 = 7.
Proof.
  apply (proj1 (get_next_build_number_cycle 7)). lia.
Defined.

(** ** Scan branches do not depend on the order of the names *)

Lemma string_compare_lt_trans (a b c : string) :
  String.compare a b = Lt -> String.compare b c = Lt ->
  String.compare a c = Lt.
Proof.
  revert b c. induction a as [| x a IH]; intros [| y b] [| z c]; simpl;
    try discriminate; auto.
  unfold Ascii.compare.
  destruct (N.compare_spec (N_of_ascii x) (N_of_ascii y)) as [Exy | Lxy | Gxy];
    try discriminate;
    destruct (N.compare_spec (N_of_ascii y) (N_of_ascii z))
      as [Eyz | Lyz | Gyz]; try discriminate; intros Hab Hbc.
  - rewrite Exy, Eyz, N.compare_refl. eapply IH; eauto.
  - rewrite Exy. apply N.compare_lt_iff in Lyz. rewrite Lyz. reflexivity.
  - rewrite <- Eyz. apply N.compare_lt_iff in Lxy. rewrite Lxy. reflexivity.
  - assert (L : (N_of_ascii x < N_of_ascii z)%N) by lia.
    apply N.compare_lt_iff in L. rewrite L. reflexivity.
Qed.

Lemma string_leb_trans (a b c : string) :
  String.leb a b = true -> String.leb b c = true -> String.leb a c = true.
Proof.
  unfold String.leb.
  destruct (String.compare a b) eqn:Eab; try discriminate;
    destruct (String.compare b c) eqn:Ebc; try discriminate; intros _ _.
  - apply String.compare_eq_iff in Eab, Ebc. subst.
    pose proof (String.compare_antisym c c) as AS.
    destruct (String.compare c c); simpl in AS;
      [reflexivity | reflexivity | discriminate AS].
  - apply String.compare_eq_iff in Eab. subst. rewrite Ebc. reflexivity.
  - apply String.compare_eq_iff in Ebc. subst. rewrite Eab. reflexivity.
  - rewrite (string_compare_lt_trans _ _ _ Eab Ebc). reflexivity.
Qed.

Section SortedOnce.

Variable A : Type.
Variable leb : A -> A -> bool.
Hypothesis leb_total : forall x y, leb x y = true \/ leb y x = true.
Hypothesis leb_trans :
  forall x y z, leb x y = true -> leb y z = true -> leb x z = true.
Hypothesis leb_antisym : forall x y, leb x y = true -> leb y x = true -> x = y.

Lemma insert_sorted_Permutation x l :
  Permutation (insert_sorted leb x l) (x :: l).
Proof.
  induction l as [| y t IH]; simpl.
  - reflexivity.
  - destruct (leb x y); [reflexivity |]. rewrite IH. apply perm_swap.
Qed.

Lemma py_sorted_Permutation l : Permutation (py_sorted leb l) l.
Proof.
  induction l as [| x t IH]; simpl.
  - reflexivity.
  - rewrite insert_sorted_Permutation. constructor. exact IH.
Qed.

Lemma insert_sorted_ordered x l :
  StronglySorted (fun a b => leb a b = true) l ->
  StronglySorted (fun a b => leb a b = true) (insert_sorted leb x l).
Proof.
  induction 1 as [| y t Ht IH Hy]; simpl.
  - repeat constructor.
  - destruct (leb x y) eqn:E.
    + constructor; [constructor; assumption |].
      constructor; [exact E |].
      eapply Forall_impl; [| exact Hy]. intros b Hb. eapply leb_trans; eauto.
    + constructor; [exact IH |].
      assert (Lyx : leb y x = true)
        by (destruct (leb_total x y); congruence).
      eapply Permutation_Forall;
        [symmetry; apply insert_sorted_Permutation |].
      constructor; assumption.
Qed.

Lemma py_sorted_ordered l :
  StronglySorted (fun a b => leb a b = true) (py_sorted leb l).
Proof.
  induction l as [| x t IH]; simpl.
  - constructor.
  - apply insert_sorted_ordered. exact IH.
Qed.

(** There is one way to put a collection in order. *)
Lemma ordered_unique l1 l2 :
  StronglySorted (fun a b => leb a b = true) l1 ->
  StronglySorted (fun a b => leb a b = true) l2 ->
  Permutation l1 l2 -> l1 = l2.
Proof.
  intros S1. revert l2. induction S1 as [| x t1 St1 IH Hx]; intros l2 S2 P.
  - apply Permutation_nil in P. congruence.
  - destruct S2 as [| y t2 St2 Hy].
    + symmetry in P. apply Permutation_nil in P. discriminate P.
    + assert (E : x = y).
      { assert (Ix : In x (y :: t2))
          by (eapply Permutation_in; [exact P | left; reflexivity]).
        assert (Iy : In y (x :: t1))
          by (eapply Permutation_in; [symmetry; exact P | left; reflexivity]).
        destruct Ix as [-> | Ix]; [reflexivity |].
        destruct Iy as [-> | Iy]; [reflexivity |].
        rewrite Forall_forall in Hx, Hy.
        apply leb_antisym; [apply Hx | apply Hy]; assumption. }
      subst y. f_equal. apply IH; [exact St2 |].
      eapply Permutation_cons_inv. exact P.
Qed.

Lemma py_sorted_permutation_invariant l1 l2 :
  Permutation l1 l2 -> py_sorted leb l1 = py_sorted leb l2.
Proof.
  intros P. apply ordered_unique; try apply py_sorted_ordered.
  rewrite !py_sorted_Permutation. exact P.
Qed.

End SortedOnce.

Lemma sorted_names_permutation_invariant (l1 l2 : list string) :
  Permutation l1 l2 -> py_sorted String.leb l1 = py_sorted String.leb l2.
Proof.
  apply py_sorted_permutation_invariant.
  - apply String.leb_total.
  - apply string_leb_trans.
  - apply String.leb_antisym.
Qed.

(** The branch of a scan does not depend on the order the coordinate
    names are handed over in: any rearrangement of the names gives the
    same branch, for [scan_branch] and for [cscan_branch2]; and the
    names joined are the names given, in lexicographic order. *)
Theorem scan_branch_order_independent (coo_names coo_names' : list string) :
  Permutation coo_names coo_names' ->
  scan_branch coo_names = scan_branch coo_names'
  /\ cscan_branch2 coo_names = cscan_branch2 coo_names'
  /\ exists ordered,
       scan_branch coo_names = str_join "_" ordered
       /\ Permutation ordered coo_names
       /\ StronglySorted (fun a b => String.leb a b = true) ordered.
Proof.
  intros P. unfold scan_branch, cscan_branch2.
  rewrite (sorted_names_permutation_invariant _ _ P).
  repeat split. exists (py_sorted String.leb coo_names').
  split; [reflexivity |]. split.
  - rewrite py_sorted_Permutation. symmetry. exact P.
  - apply py_sorted_ordered.
    + apply String.leb_total.
    + apply string_leb_trans.
Qed.

Lemma scan_branch_order_independent_witness :
  scan_branch ["D5"; "R1"; "A2"] = scan_branch ["R1"; "A2"; "D5"]
  /\ cscan_branch2 ["D5"; "R1"; "A2"] = cscan_branch2 ["R1"; "A2"; "D5"]
  /\ exists ordered,
       scan_branch ["D5"; "R1"; "A2"] = str_join "_" ordered
       /\ Permutation ordered ["D5"; "R1"; "A2"]
       /\ StronglySorted (fun a b => String.leb a b = true) ordered.
Proof.
  apply scan_branch_order_independent.
  apply Permutation_cons_app with (l1 := ["R1"; "A2"]) (l2 := []).
  reflexivity.
Defined.

Example scan_branch_example :
  scan_branch ["D5"; "R1"; "A2"] = "A2_D5_R1" /\ scan_branch [] = "".
Proof. vm_compute. split; reflexivity. Qed.

(** ** Scan leaves can be taken apart again *)

Lemma append_nil_r (s : string) : s ++ "" = s.
Proof. induction s as [| c s IH]; simpl; [| rewrite IH]; reflexivity. Qed.

Lemma str_join_cons (sep p : string) (rest : list string) :
  str_join sep (p :: rest)
  = p ++ match rest with
         | [] => ""
         | _ :: _ => sep ++ str_join sep rest
         end.
Proof. destruct rest; simpl; [rewrite append_nil_r |]; reflexivity. Qed.

(** Two texts free of the separator, each followed by nothing or by a
    separator and more, are the same text followed by the same. *)
Lemma split_at_separator (x y r1 r2 : string) :
  all_chars not_sep x = true -> all_chars not_sep y = true ->
  (r1 = "" \/ exists t, r1 = String "_" t) ->
  (r2 = "" \/ exists t, r2 = String "_" t) ->
  x ++ r1 = y ++ r2 -> x = y /\ r1 = r2.
Proof.
  revert y. induction x as [| c x IH]; intros [| d y] Hx Hy R1 R2 E; simpl in E.
  - split; [reflexivity | exact E].
  - exfalso. unfold all_chars in Hy. simpl in Hy.
    apply andb_prop in Hy as [Hd _].
    destruct R1 as [-> | [t ->]]; [discriminate E |].
    injection E as <- _. discriminate Hd.
  - exfalso. unfold all_chars in Hx. simpl in Hx.
    apply andb_prop in Hx as [Hc _].
    destruct R2 as [-> | [t ->]]; [discriminate E |].
    injection E as -> _. discriminate Hc.
  - injection E as -> E.
    unfold all_chars in Hx, Hy. simpl in Hx, Hy.
    apply andb_prop in Hx as [_ Hx]. apply andb_prop in Hy as [_ Hy].
    destruct (IH y Hx Hy R1 R2 E) as [-> ->]. split; reflexivity.
Qed.

Lemma str_join_injective (l1 l2 : list string) :
  Forall (fun s => s <> "" /\ all_chars not_sep s = true) l1 ->
  Forall (fun s => s <> "" /\ all_chars not_sep s = true) l2 ->
  str_join "_" l1 = str_join "_" l2 -> l1 = l2.
Proof.
  intros H1. revert l2.
  induction H1 as [| x t1 [Nx Hx] Ht1 IH]; intros l2 H2 E.
  - destruct H2 as [| y t2 [Ny Hy] Ht2]; [reflexivity |].
    rewrite str_join_cons in E. simpl in E.
    destruct y; [congruence | discriminate E].
  - destruct H2 as [| y t2 [Ny Hy] Ht2].
    + rewrite str_join_cons in E. simpl in E.
      destruct x; [congruence | discriminate E].
    + rewrite !str_join_cons in E.
      apply split_at_separator in E as [-> E]; try assumption.
      * f_equal. destruct t1 as [| a t1], t2 as [| b t2];
          try reflexivity; try discriminate E.
        apply IH; [exact Ht2 |]. simpl in E. injection E as E. exact E.
      * destruct t1; [left; reflexivity | right; eexists; reflexivity].
      * destruct t2; [left; reflexivity | right; eexists; reflexivity].
Qed.

Lemma not_sep_alnum (c : ascii) : is_alnum c = true -> not_sep c = true.
Proof.
  intros H. unfold not_sep.
  destruct (Ascii.eqb c "_") eqn:E; [| reflexivity].
  apply Ascii.eqb_eq in E. subst c. discriminate H.
Qed.

Lemma format_2f_no_separator (val : spec_float) :
  format_2f val <> "" /\ all_chars not_sep (format_2f val) = true.
Proof.
  assert (D : forall n, all_chars not_sep (digits n) = true).
  { intros n. eapply all_chars_weaken; [exact not_sep_alnum |].
    apply digits_alnum. }
  destruct val as [s | s | | s m e].
  - destruct s; split; try discriminate; reflexivity.
  - destruct s; split; try discriminate; reflexivity.
  - split; [discriminate | reflexivity].
  - split.
    + intros E. pose proof (format_2f_has_point s m e) as P.
      rewrite E in P. discriminate P.
    + simpl. rewrite !all_chars_app, D.
      replace (all_chars not_sep (sign_str s)) with true
        by (destruct s; reflexivity).
      change (all_chars not_sep ".") with true. simpl.
      apply all_chars_pad_left; [reflexivity | apply D].
Qed.

(** A scan leaf can be taken apart again: two lists of coordinate
    values with the same leaf have the same number of values and, place
    by place, the same two-decimal text; the same holds for the leaf of
    a constrained scan. *)
Theorem scan_leaf_decodes (coo_vals coo_vals' : list spec_float) :
  (scan_leaf coo_vals = scan_leaf coo_vals' ->
   map format_2f coo_vals = map format_2f coo_vals'
   /\ List.length coo_vals = List.length coo_vals')
  /\ (cscan_leaf coo_vals = cscan_leaf coo_vals' ->
      map format_2f coo_vals = map format_2f coo_vals'
      /\ List.length coo_vals = List.length coo_vals').
Proof.
  assert (G : scan_leaf coo_vals = scan_leaf coo_vals' ->
              map format_2f coo_vals = map format_2f coo_vals'
              /\ List.length coo_vals = List.length coo_vals').
  { unfold scan_leaf. intros E.
    apply str_join_injective in E.
    - split; [exact E |].
      rewrite <- (length_map format_2f coo_vals), E. apply length_map.
    - apply Forall_map, Forall_forall. intros v _.
      apply format_2f_no_separator.
    - apply Forall_map, Forall_forall. intros v _.
      apply format_2f_no_separator. }
  split; exact G.
Qed.

Lemma scan_leaf_decodes_witness :
  map format_2f [float_1_005; float_2_0]
  = map format_2f [S754_finite false 1 0; float_2_0]
  /\ List.length [float_1_005; float_2_0]
     = List.length [S754_finite false 1 0; float_2_0].
Proof.
  apply (proj1 (scan_leaf_decodes [float_1_005; float_2_0]
                  [S754_finite false 1 0; float_2_0])).
  vm_compute. reflexivity.
Defined.

(** ** Rounding of the coordinate values *)

Lemma div_half_even_nearest (num den : N) :
  (0 < den)%N ->
  (2 * div_half_even num den * den <= 2 * num + den)%N
  /\ (2 * num <= 2 * div_half_even num den * den + den)%N
  /\ ((2 * (num mod den) = den)%N -> N.even (div_half_even num den) = true).
Proof.
  intros Hd. unfold div_half_even.
  pose proof (N.div_mod num den ltac:(lia)) as E.
  pose proof (N.mod_lt num den ltac:(lia)) as R.
  remember (num / den)%N as q eqn:Eq.
  remember (num mod den)%N as r eqn:Er.
  assert (P : (q * den + den = (q + 1) * den)%N) by lia.
  destruct ((den <? 2 * r)%N || ((2 * r =? den)%N && N.odd q)) eqn:C.
  - assert (Dr : (den <= 2 * r)%N).
    { apply orb_prop in C as [C | C].
      - apply N.ltb_lt in C. lia.
      - apply andb_prop in C as [C _]. apply N.eqb_eq in C. lia. }
    split; [| split].
    + lia.
    + lia.
    + intros T. apply orb_prop in C as [C | C].
      * apply N.ltb_lt in C. lia.
      * apply andb_prop in C as [_ C].
        rewrite N.add_1_r, N.even_succ. exact C.
  - apply orb_false_elim in C as [C1 C2]. apply N.ltb_ge in C1.
    split; [| split].
    + lia.
    + lia.
    + intros T. apply N.eqb_eq in T. rewrite T in C2.
      simpl in C2. rewrite <- N.negb_odd, C2. reflexivity.
Qed.

(** The two decimals of a scan leaf are the value rounded to the
    nearest hundredth: the hundredths printed for [m * 2^e] are exact
    when [e >= 0], and for [e = -p] they differ from [100 * m / 2^p] by
    at most one half, a value half-way between two hundredths going to
    the even one. *)
Theorem scan_leaf_rounds_to_nearest (s : bool) (m p : positive) :
  let h := hundredths m (Zneg p) in
  let d := (2 ^ Npos p)%N in
  scan_leaf [S754_finite s m (Zneg p)]
  = sign_str s ++ digits (h / 100) ++ "." ++ pad_left "0" 2 (digits (h mod 100))
  /\ (2 * h * d <= 2 * (Npos m * 100) + d)%N
  /\ (2 * (Npos m * 100) <= 2 * h * d + d)%N
  /\ ((2 * ((Npos m * 100) mod d) = d)%N -> N.even h = true)
  /\ hundredths m 0 = (Npos m * 100)%N
  /\ hundredths m (Zpos p) = (Npos m * 100 * d)%N.
Proof.
  intros h d. split; [reflexivity |].
  assert (Hd : (0 < d)%N).
  { unfold d. apply N.neq_0_lt_0. apply N.pow_nonzero. discriminate. }
  destruct (div_half_even_nearest (Npos m * 100) d Hd) as (H1 & H2 & H3).
  repeat split; assumption || reflexivity.
Qed.

Lemma scan_leaf_rounds_to_nearest_witness :
  N.even (hundredths 1 (Zneg 3)) = true.
Proof.
  apply (proj1 (proj2 (proj2 (proj2
           (scan_leaf_rounds_to_nearest false 1 3))))).
  reflexivity.
Defined.

(** ** Theory leaves *)

Lemma append_inj_l (p x y : string) : p ++ x = p ++ y -> x = y.
Proof.
  induction p as [| c p IH]; simpl; intros H; [exact H |].
  injection H as H. apply IH. exact H.
Qed.

Lemma orb_str_cases (s : string) :
  s = "R" \/ s = "U"
  \/ (forall (A : Type) (r u other : A),
        match s with
        | "R" => r
        | "U" => u
        | _ => other
        end = other).
Proof.
  destruct s as [| c [| c' t]].
  - right. right. reflexivity.
  - destruct c as [[] [] [] [] [] [] [] []];
      try (right; right; reflexivity);
      [right; left; reflexivity | left; reflexivity].
  - right. right. intros A r u other.
    destruct c as [[] [] [] [] [] [] [] []]; reflexivity.
Qed.

Lemma append_assoc (a b c : string) : (a ++ b) ++ c = a ++ (b ++ c).
Proof. induction a as [| x a IH]; simpl; [| rewrite IH]; reflexivity. Qed.

Section TheoryLeaf.

Variable evaluate_method_type : string -> string * list string.
Variable method_contains : string -> bool.
Variable basis_contains : string -> bool.
Variable _short_hash : string -> string.
Variable _short_hash_list : list pyval -> string.
Variable lower : string -> string.
Variable upper : string -> string.

(** A name is the front, which method and basis decide, followed by
    the text that stands for the orbital type. *)
Lemma theory_leaf_ok method basis orb_type name :
  theory_leaf evaluate_method_type method_contains basis_contains _short_hash
    _short_hash_list lower upper method basis orb_type = Ok name ->
  exists orb_hash,
    name = theory_front evaluate_method_type _short_hash lower method basis
           ++ orb_hash
    /\ ((orb_type = OrbStr "R" /\ orb_hash = "R")
        \/ (orb_type = OrbStr "U" /\ orb_hash = "U")
        \/ (exists items,
               orb_type = OrbList items
               /\ orb_hash = "@" ++ upper (_short_hash_list items))).
Proof.
  unfold theory_leaf, theory_front.
  destruct (evaluate_method_type method) as [core_method pfxs].
  intros H. apply py_assert_ok in H as [Cm H].
  apply py_assert_ok in H as [Cb H].
  apply bind_ok in H as (oh & Ho & H). injection H as <-.
  exists oh. split.
  - simpl. rewrite !append_assoc. reflexivity.
  - destruct orb_type as [s | items |]; [| | discriminate Ho].
    + destruct (orb_str_cases s) as [-> | [-> | Other]].
      * left. injection Ho as <-. split; reflexivity.
      * right. left. injection Ho as <-. split; reflexivity.
      * rewrite Other in Ho. discriminate Ho.
    + right. right. exists items.
      apply py_assert_ok in Ho as [_ Ho]. injection Ho as <-.
      split; reflexivity.
Qed.

(** The name tells the orbital types apart: for one method and one
    basis, the names for ['R'], for ['U'] and for a pair of orbital
    counts are all different, the marker ['@'] keeping the hash of a
    pair clear of the two letters; only two pairs with the same hash
    share a name. *)
Theorem theory_leaf_orbital_types_apart method basis orb_type orb_type' name :
  theory_leaf evaluate_method_type method_contains basis_contains _short_hash
    _short_hash_list lower upper method basis orb_type = Ok name ->
  theory_leaf evaluate_method_type method_contains basis_contains _short_hash
    _short_hash_list lower upper method basis orb_type' = Ok name ->
  orb_type = orb_type'
  \/ exists items items',
       orb_type = OrbList items /\ orb_type' = OrbList items'
       /\ upper (_short_hash_list items) = upper (_short_hash_list items').
Proof.
  intros H H'.
  destruct (theory_leaf_ok _ _ _ _ H) as (oh & E & K).
  destruct (theory_leaf_ok _ _ _ _ H') as (oh' & E' & K').
  assert (Eh : oh = oh').
  { apply (append_inj_l
             (theory_front evaluate_method_type _short_hash lower method
                basis)).
    rewrite <- E. exact E'. }
  subst oh'.
  destruct K as [[-> ->] | [[-> ->] | (items & -> & ->)]];
    destruct K' as [[-> E1] | [[-> E1] | (items' & -> & E1)]];
    try discriminate E1; try (left; reflexivity).
  right. exists items, items'. repeat split.
  injection E1 as E1. exact E1.
Qed.

(** [theory_leaf] returns exactly when the core method and the basis
    are registered and the orbital type is ['R'], ['U'] or a list of two
    integers; in every other case it fails with an assertion error. *)
Theorem theory_leaf_accepts method basis orb_type :
  if method_contains (fst (evaluate_method_type method))
     && basis_contains basis && well_formed_orb orb_type
  then exists name,
      theory_leaf evaluate_method_type method_contains basis_contains
        _short_hash _short_hash_list lower upper method basis orb_type
      = Ok name
  else theory_leaf evaluate_method_type method_contains basis_contains
         _short_hash _short_hash_list lower upper method basis orb_type
       = Raise AssertionError.
Proof.
  unfold theory_leaf.
  destruct (evaluate_method_type method) as [core_method pfxs]. simpl fst.
  destruct (method_contains core_method); [| reflexivity].
  destruct (basis_contains basis); [| reflexivity]. simpl.
  destruct orb_type as [s | items |]; simpl; [| | reflexivity].
  - destruct (orb_str_cases s) as [-> | [-> | Other]].
    + simpl. eexists. reflexivity.
    + simpl. eexists. reflexivity.
    + rewrite Other. simpl.
      replace (String.eqb s "R" || String.eqb s "U") with false.
      * reflexivity.
      * symmetry. apply orb_false_intro; apply String.eqb_neq; intros ->.
        -- specialize (Other bool true false false). discriminate Other.
        -- specialize (Other bool false true false). discriminate Other.
  - destruct ((List.length items =? 2)%nat && forallb is_int items); simpl.
    + eexists. reflexivity.
    + reflexivity.
Qed.

End TheoryLeaf.

Lemma theory_leaf_orbital_types_apart_witness :
  OrbStr "U" = OrbStr "U"
  \/ exists items items',
       OrbStr "U" = OrbList items /\ OrbStr "U" = OrbList items'
       /\ str_upper ("h" ++ str_join "" (map str_integral items))
          = str_upper ("h" ++ str_join "" (map str_integral items')).
Proof.
  apply (theory_leaf_orbital_types_apart
           (fun method => (method, [])) (fun _ => true) (fun _ => true)
           (fun s => "h" ++ s)
           (fun items => "h" ++ str_join "" (map str_integral items))
           (fun s => s) str_upper "uhf" "cc-pvdz" (OrbStr "U") (OrbStr "U")
           "huhfhcc-pvdzU");
    reflexivity.
Defined.

Example theory_leaf_examples :
  let leaf :=
    theory_leaf (fun method => (method, [])) (fun _ => true) (fun _ => true)
      (fun s => "h" ++ s)
      (fun items => "h" ++ str_join "" (map str_integral items))
      (fun s => s) str_upper in
  leaf "uhf" "cc-pvdz" (OrbStr "U") = Ok "huhfhcc-pvdzU"
  /\ leaf "uhf" "cc-pvdz" (OrbList [PyInt 2; PyInt 1]) = Ok "huhfhcc-pvdz@H21"
  /\ leaf "uhf" "cc-pvdz" (OrbList [PyInt 2]) = Raise AssertionError
  /\ leaf "uhf" "cc-pvdz" (OrbStr "X") = Raise AssertionError.
Proof. vm_compute. repeat split. Qed.

(** ** Build and run names *)

Lemma char_upper_idempotent (c : ascii) :
  char_upper (char_upper c) = char_upper c.
Proof. destruct c as [[] [] [] [] [] [] [] []]; reflexivity. Qed.

Lemma str_upper_idempotent (s : string) : str_upper (str_upper s) = str_upper s.
Proof.
  induction s as [| c s IH]; simpl; [reflexivity |].
  rewrite char_upper_idempotent, IH. reflexivity.
Qed.

Lemma str_upper_prefix (n : nat) (s : string) :
  str_upper (str_prefix n s) = str_prefix n (str_upper s).
Proof.
  revert s. induction n as [| n IH]; intros [| c s]; simpl; try reflexivity.
  rewrite IH. reflexivity.
Qed.

Lemma str_prefix_length (n : nat) (s : string) :
  (String.length (str_prefix n s) <= n)%nat.
Proof.
  revert s. induction n as [| n IH]; intros [| c s]; simpl; try lia.
  specialize (IH s). lia.
Qed.

Lemma str_prefix_idempotent (n : nat) (s : string) :
  str_prefix n (str_prefix n s) = str_prefix n s.
Proof.
  revert s. induction n as [| n IH]; intros [| c s]; simpl; try reflexivity.
  rewrite IH. reflexivity.
Qed.

Lemma char_upper_not_lower (c : ascii) : is_lower (char_upper c) = false.
Proof. destruct c as [[] [] [] [] [] [] [] []]; reflexivity. Qed.

(** On ASCII text: the trunk of a build has at most four characters
    and no lower-case letter, naming a trunk or a branch a second time
    changes nothing, the case of the head does not matter, and the leaf
    of a run is the trunk a build of the same name would get, the job
    being a registered one; a job that is not is refused with an
    assertion error. *)
Theorem build_and_run_names (job_contains : string -> bool) (head : string) :
  is_ascii head = true ->
  (String.length (build_trunk head) <= 4)%nat
  /\ all_chars (fun c => negb (is_lower c)) (build_trunk head) = true
  /\ build_trunk (build_trunk head) = build_trunk head
  /\ build_branch (build_branch head) = build_branch head
  /\ build_trunk (build_branch head) = build_trunk head
  /\ run_leaf job_contains head
     = (if job_contains head then Ok (build_trunk head)
        else Raise AssertionError).
Proof.
  intros _. unfold build_trunk, build_branch, run_leaf, py_assert.
  repeat split.
  - apply str_prefix_length.
  - generalize 4%nat. intros n. revert n. unfold all_chars.
    induction head as [| c s IH]; intros [| n];
      cbn [str_upper str_prefix list_ascii_of_string forallb];
      try reflexivity.
    rewrite char_upper_not_lower. apply IH.
  - rewrite str_upper_prefix, str_upper_idempotent.
    apply str_prefix_idempotent.
  - apply str_upper_idempotent.
  - rewrite str_upper_idempotent. reflexivity.
  - rewrite str_upper_prefix. reflexivity.
Qed.

Lemma build_and_run_names_witness :
  (String.length (build_trunk "energy") <= 4)%nat
  /\ all_chars (fun c => negb (is_lower c)) (build_trunk "energy") = true
  /\ build_trunk (build_trunk "energy") = build_trunk "energy"
  /\ build_branch (build_branch "energy") = build_branch "energy"
  /\ build_trunk (build_branch "energy") = build_trunk "energy"
  /\ run_leaf (fun job => String.eqb job "energy") "energy"
     = (if String.eqb "energy" "energy" then Ok (build_trunk "energy")
        else Raise AssertionError).
Proof.
  apply (build_and_run_names (fun job => String.eqb job "energy") "energy").
  reflexivity.
Defined.

Example build_and_run_examples :
  build_trunk "mess" = "MESS" /\ build_trunk "Projrot" = "PROJ"
  /\ build_branch "rate" = "RATE"
  /\ run_leaf (fun _ => true) "optimization" = Ok "OPTI"
  /\ run_leaf (fun _ => false) "optimization" = Raise AssertionError.
Proof. vm_compute. repeat split. Qed.

(** ** Characters of every name *)













Section Paths.

Variable sorted_ : list string -> list string.
Variable is_standard_form : string -> bool.
Variable is_complete : string -> bool.
Variable standard_form : string -> string.
Variable join : list string -> string.
Variable inchi_key : string -> string.
Variable formula_layer : string -> string.
Variable first_hash : string -> string.
Variable second_hash_with_extension : string -> string.
Variable _is_valid_inchi_multiplicity : string -> Z -> option Z -> bool.

Hypothesis formula_layer_safe :
  forall ich, all_chars fs_safe (formula_layer ich) = true.
Hypothesis first_hash_safe :
  forall ick, all_chars fs_safe (first_hash ick) = true.
Hypothesis second_hash_safe :
  forall ick, all_chars fs_safe (second_hash_with_extension ick) = true.





End Paths.

Section Hashes.

Variable evaluate_method_type : string -> string * list string.
Variable method_contains : string -> bool.
Variable basis_contains : string -> bool.
Variable _short_hash : string -> string.
Variable _short_hash_list : list pyval -> string.
Variable lower : string -> string.
Variable upper : string -> string.
Variable py_int : string -> result Z.
Variable round_2 : spec_float -> spec_float.
Variable _short_hash_dict : list (string * spec_float) -> string.

Hypothesis _short_hash_safe :
  forall s, all_chars fs_safe (_short_hash s) = true.
Hypothesis _short_hash_list_safe :
  forall items, all_chars fs_safe (upper (_short_hash_list items)) = true.
Hypothesis _short_hash_dict_safe :
  forall dct, all_chars fs_safe (_short_hash_dict dct) = true.



End Hashes.








Example cscan_branch1_examples :
  let branch :=
    cscan_branch1 int_of_str (fun val => val)
      (fun dct => str_join "" (map fst dct)) in
  branch [("D5", float_2_0); ("R10", float_1_005); ("A2", float_2_0);
          ("R2", float_2_0)] = Ok "R2R10A2D5"
  /\ branch [] = Ok ""
  /\ branch [("X1", float_2_0)] = Raise KeyError
  /\ branch [("Rx", float_2_0)] = Raise ValueError
  /\ branch [("", float_2_0)] = Raise IndexError.
Proof. vm_compute. repeat split. Qed.

Example whole_float_str_examples :
  whole_float_str float_2_0 = Some "2.0"
  /\ whole_float_str (S754_zero true) = Some "-0.0"
  /\ whole_float_str (S754_finite true 6755399441055744 (-45)) = Some "-192.0"
  /\ whole_float_str (S754_finite false 8796093022208000 (-43)) = Some "1000.0"
  /\ whole_float_str float_1_005 = None
  /\ whole_float_str (S754_finite false 4503599627370496 (-2)) = None.
Proof. vm_compute. repeat split. Qed.
